(** * doc_steward: docstring inventory, coverage report and docstring insertion

    A shallow embedding of [src/doc_steward.py].  Python values are modelled
    as follows.

    - [str] is [string] (8-bit characters); the [str] methods used by the
      program ([replace], [capitalize], [lstrip], [expandtabs], [split],
      [in]) are modelled on the ASCII range, characters above 127 being
      neither whitespace nor letters.
    - the tree returned by [ast.parse] is the inductive type [stmt]; the
      parser itself is outside the program, so a readable file carries its
      text together with the parser's verdict on it.
    - exceptions are the [Raise] case of [result].
    - [float] is the kernel's binary64 [float]. *)

From Stdlib Require Import ZArith Ascii String List Lia.
From Stdlib Require Import Floats.PrimFloat Floats.FloatOps Floats.SpecFloat.
From stdpp Require Import base option list strings gmap sorting.

(** ** Python exceptions and results *)

Inductive exn : Type :=
| FileNotFoundError
| PermissionError
| SyntaxError
| IndexError.

Inductive result (A : Type) : Type :=
| Ok (a : A)
| Raise (e : exn).

Arguments Ok {A} a.
Arguments Raise {A} e.

#[global] Instance result_ret : MRet result := fun A a => Ok a.

#[global] Instance result_bind : MBind result := fun A B k r =>
  match r with
  | Ok a => k a
  | Raise e => Raise e
  end.

#[global] Instance result_fmap : FMap result := fun A B f r =>
  match r with
  | Ok a => Ok (f a)
  | Raise e => Raise e
  end.

(** ** Characters and strings, as Python's [str] methods see them *)

Module PyStr.

Definition newline : ascii := "010"%char.
Definition tab : ascii := "009"%char.
Definition cr : ascii := "013"%char.
Definition dquote : ascii := "034"%char.
Definition colon : ascii := ":"%char.
Definition space : ascii := " "%char.

Definition nl : string := String newline EmptyString.
Definition triple_quote : string :=
  String dquote (String dquote (String dquote EmptyString)).

(** [str.isspace] on one character. *)
Definition isspace (c : ascii) : bool :=
  let n := nat_of_ascii c in
  ((9 <=? n) && (n <=? 13)) || ((28 <=? n) && (n <=? 32)).

(** [str.isascii]: every character is below 128. *)
Fixpoint isascii (s : string) : bool :=
  match s with
  | EmptyString => true
  | String c s' => (nat_of_ascii c <? 128) && isascii s'
  end.

(** [str.upper] and [str.lower] on one ASCII character; what Python does
    with a letter outside ASCII is not modelled, and statements that depend
    on it assume [isascii]. *)
Definition upper (c : ascii) : ascii :=
  let n := nat_of_ascii c in
  if (97 <=? n) && (n <=? 122) then ascii_of_nat (n - 32) else c.

Definition lower (c : ascii) : ascii :=
  let n := nat_of_ascii c in
  if (65 <=? n) && (n <=? 90) then ascii_of_nat (n + 32) else c.

Fixpoint map (f : ascii -> ascii) (s : string) : string :=
  match s with
  | EmptyString => EmptyString
  | String c s' => String (f c) (map f s')
  end.

(** [s.replace(a, b)] for one-character [a] and [b]. *)
Definition replace (a b : ascii) (s : string) : string :=
  map (fun c => if Ascii.eqb c a then b else c) s.

(** [s.capitalize()] for an ASCII [s]: first character upper-cased, all
    others lower-cased. *)
Definition capitalize (s : string) : string :=
  match s with
  | EmptyString => EmptyString
  | String c s' => String (upper c) (map lower s')
  end.

(** [c in s] for a character [c]. *)
Fixpoint contains (c : ascii) (s : string) : bool :=
  match s with
  | EmptyString => false
  | String d s' => Ascii.eqb d c || contains c s'
  end.

(** [s.lstrip()]. *)
Fixpoint lstrip (s : string) : string :=
  match s with
  | EmptyString => EmptyString
  | String c s' => if isspace c then lstrip s' else s
  end.

(** [" " * n]. *)
Fixpoint spaces (n : nat) : string :=
  match n with
  | O => EmptyString
  | S n' => String space (spaces n')
  end.

(** [s[n:]]. *)
Fixpoint drop (n : nat) (s : string) : string :=
  match n, s with
  | O, _ => s
  | S _, EmptyString => EmptyString
  | S n', String _ s' => drop n' s'
  end.

(** [s.split("\n")]: never empty, one more item than there are newlines. *)
Fixpoint split_lines (s : string) : list string :=
  match s with
  | EmptyString => [EmptyString]
  | String c s' =>
      if Ascii.eqb c newline then EmptyString :: split_lines s'
      else match split_lines s' with
           | [] => [String c EmptyString]
           | l :: ls => String c l :: ls
           end
  end.

(** ["\n".join(ls)]. *)
Fixpoint join_lines (ls : list string) : string :=
  match ls with
  | [] => EmptyString
  | [l] => l
  | l :: ls' => l +:+ nl +:+ join_lines ls'
  end.

(** [s.expandtabs()] with the default tab size of 8; the column restarts
    after a line feed or a carriage return. *)
Fixpoint expandtabs_from (col : nat) (s : string) : string :=
  match s with
  | EmptyString => EmptyString
  | String c s' =>
      if Ascii.eqb c tab then
        let incr := 8 - col mod 8 in
        spaces incr +:+ expandtabs_from (col + incr) s'
      else if Ascii.eqb c newline || Ascii.eqb c cr then
        String c (expandtabs_from 0 s')
      else String c (expandtabs_from (S col) s')
  end.

Definition expandtabs (s : string) : string := expandtabs_from 0 s.

(** [os.path.basename] (POSIX): what follows the last slash. *)
Fixpoint basename (p : string) : string :=
  match p with
  | EmptyString => EmptyString
  | String c p' =>
      if contains "/"%char p then basename p' else p
  end.

(** Truth value of a [str]: non-empty. *)
Definition nonempty (s : string) : bool :=
  match s with EmptyString => false | String _ _ => true end.

End PyStr.

(** [inspect.cleandoc], which [ast.get_docstring] applies to the literal.
    Blank lines are judged with [str.lstrip()]; a release that strips spaces
    only gives the same result on every text whose whitespace is made of
    spaces, tabs and line feeds. *)
Module Inspect.

Import PyStr.

(** Minimum indentation of the non-blank lines; [None] is [sys.maxsize]. *)
Fixpoint margin_of (ls : list string) (margin : option nat) : option nat :=
  match ls with
  | [] => margin
  | line :: ls' =>
      let content := String.length (lstrip line) in
      if content =? 0 then margin_of ls' margin
      else
        let indent := String.length line - content in
        margin_of ls' (Some (match margin with
                             | None => indent
                             | Some m => Nat.min m indent
                             end))
  end.

(** [while lines and not lines[0]: lines.pop(0)]. *)
Fixpoint drop_leading_blank (ls : list string) : list string :=
  match ls with
  | EmptyString :: ls' => drop_leading_blank ls'
  | _ => ls
  end.

(** [while lines and not lines[-1]: lines.pop()]. *)
Definition drop_trailing_blank (ls : list string) : list string :=
  rev (drop_leading_blank (rev ls)).

Definition cleandoc (doc : string) : string :=
  match split_lines (expandtabs doc) with
  | [] => EmptyString
  | first :: rest =>
      let margin := margin_of rest None in
      let first' := lstrip first in
      let rest' := match margin with
                   | None => rest
                   | Some m => List.map (PyStr.drop m) rest
                   end in
      join_lines (drop_leading_blank (drop_trailing_blank (first' :: rest')))
  end.

End Inspect.

(** ** The syntax tree that [ast.parse] returns

    Only what the program looks at is kept: definitions with their names,
    parameters, bodies and line numbers, expression statements, and every
    other statement as the list of the statements it contains, in the order
    in which [ast.NodeVisitor.generic_visit] meets them. *)

Module Ast.

Inductive expr : Type :=
| Constant_str (value : string)
| Other_expr.

(** [ast.arguments], parameter names only. *)
Record arguments : Type := {
  posonlyargs : list string;
  args : list string;
  vararg : option string;
  kwonlyargs : list string;
  kwarg : option string
}.

#[local] Unset Elimination Schemes.

Inductive stmt : Type :=
| FunctionDef (name : string) (params : arguments) (body : list stmt)
    (lineno end_lineno : nat)
| AsyncFunctionDef (name : string) (params : arguments) (body : list stmt)
    (lineno end_lineno : nat)
| ClassDef (name : string) (body : list stmt) (lineno end_lineno : nat)
| Expr (value : expr)
| Other (children : list stmt).

#[local] Set Elimination Schemes.

Record Module : Type := { body : list stmt }.

(** [ast.get_docstring(node)] on the body of a module, class or function. *)
Definition get_docstring (body : list stmt) : option string :=
  match body with
  | Expr (Constant_str text) :: _ => Some (Inspect.cleandoc text)
  | _ => None
  end.

(** Induction over statements that reaches the nested bodies. *)
Section stmt_ind_nested.
Variable P : stmt -> Prop.
Hypothesis HFun : forall name params body lineno end_lineno,
  Forall P body -> P (FunctionDef name params body lineno end_lineno).
Hypothesis HAsync : forall name params body lineno end_lineno,
  Forall P body -> P (AsyncFunctionDef name params body lineno end_lineno).
Hypothesis HClass : forall name body lineno end_lineno,
  Forall P body -> P (ClassDef name body lineno end_lineno).
Hypothesis HExpr : forall value, P (Expr value).
Hypothesis HOther : forall children, Forall P children -> P (Other children).

Fixpoint stmt_ind_nested (s : stmt) : P s :=
  let all := fix all (l : list stmt) : Forall P l :=
    match l with
    | [] => @List.Forall_nil stmt P
    | x :: l' => @List.Forall_cons stmt P x l' (stmt_ind_nested x) (all l')
    end in
  match s with
  | FunctionDef n p b l e => HFun n p b l e (all b)
  | AsyncFunctionDef n p b l e => HAsync n p b l e (all b)
  | ClassDef n b l e => HClass n b l e (all b)
  | Expr v => HExpr v
  | Other c => HOther c (all c)
  end.
End stmt_ind_nested.

End Ast.

(** ** The inventory built by [DocstringExtractor] *)

(** Truth value of an optional [str]: [None] and the empty string are false. *)
Definition truthy (docstring : option string) : bool :=
  match docstring with
  | Some s => PyStr.nonempty s
  | None => false
  end.

Record func_info : Type := {
  f_name : string;
  f_docstring : option string;
  f_line : nat;
  f_end_line : nat;
  f_args : list string
}.

Record class_info : Type := {
  c_name : string;
  c_docstring : option string;
  c_line : nat;
  c_end_line : nat;
  c_methods : list func_info
}.

Record module_info : Type := {
  m_docstring : option string;
  m_line : nat;
  m_name : string
}.

Record Entities : Type := {
  module : module_info;
  classes : list class_info;
  functions : list func_info
}.

(** The visitor's state.  [_current_class] refers to a dictionary that also
    sits in the list of classes of [entities]; the reference is the position
    of that dictionary in the list, so appending a method through it is an
    update of the list in place. *)
Record DocstringExtractor : Type := {
  entities : Entities;
  _current_class : option nat
}.

Module Extractor.

Import Ast.

Definition __init__ : DocstringExtractor :=
  {| entities := {| module := {| m_docstring := None; m_line := 1;
                                 m_name := "Module" |};
                    classes := [];
                    functions := [] |};
     _current_class := None |}.

Definition is_receiver (a : string) : bool :=
  String.eqb a "self" || String.eqb a "cls".

Definition add_method (func : func_info) (cls : class_info) : class_info :=
  {| c_name := c_name cls; c_docstring := c_docstring cls;
     c_line := c_line cls; c_end_line := c_end_line cls;
     c_methods := c_methods cls ++ [func] |}.

Definition make_func_info (name : string) (params : arguments)
    (body : list stmt) (lineno end_lineno : nat) : func_info :=
  {| f_name := name;
     f_docstring := get_docstring body;
     f_line := lineno;
     f_end_line := end_lineno;
     f_args := List.filter (fun a => negb (is_receiver a)) (args params) |}.

Definition _visit_callable (name : string) (params : arguments)
    (body : list stmt) (lineno end_lineno : nat)
    (self : DocstringExtractor) : DocstringExtractor :=
  let func := make_func_info name params body lineno end_lineno in
  let ents := entities self in
  match _current_class self with
  | Some ref =>
      {| entities := {| module := module ents;
                        classes := alter (add_method func) ref (classes ents);
                        functions := functions ents |};
         _current_class := _current_class self |}
  | None =>
      {| entities := {| module := module ents;
                        classes := classes ents;
                        functions := functions ents ++ [func] |};
         _current_class := _current_class self |}
  end.

Definition make_class_info (name : string) (body : list stmt)
    (lineno end_lineno : nat) : class_info :=
  {| c_name := name;
     c_docstring := get_docstring body;
     c_line := lineno;
     c_end_line := end_lineno;
     c_methods := [] |}.

(** Append [info] to the classes and make it the current class. *)
Definition enter_class (info : class_info) (self : DocstringExtractor)
    : DocstringExtractor :=
  let ents := entities self in
  {| entities := {| module := module ents;
                    classes := classes ents ++ [info];
                    functions := functions ents |};
     _current_class := Some (length (classes ents)) |}.

Definition set_current_class (old_class : option nat)
    (self : DocstringExtractor) : DocstringExtractor :=
  {| entities := entities self; _current_class := old_class |}.

Definition visit_FunctionDef := _visit_callable.

Definition visit_AsyncFunctionDef := _visit_callable.

(** [visit_ClassDef]; [visit_body] is [self.generic_visit(node)], the visit
    of the statements of the class body. *)
Definition visit_ClassDef
    (visit_body : DocstringExtractor -> DocstringExtractor)
    (name : string) (body : list stmt) (lineno end_lineno : nat)
    (self : DocstringExtractor) : DocstringExtractor :=
  let class_info := make_class_info name body lineno end_lineno in
  let old_class := _current_class self in
  let self := enter_class class_info self in
  let self := visit_body self in
  set_current_class old_class self.

(** [NodeVisitor.visit] on a statement: the method for its node type if the
    class defines one, [generic_visit] otherwise.  A function is recorded
    and not entered; a class is recorded and entered; any other statement
    is entered. *)
Fixpoint visit (node : stmt) (self : DocstringExtractor) : DocstringExtractor :=
  match node with
  | FunctionDef name params body lineno end_lineno =>
      visit_FunctionDef name params body lineno end_lineno self
  | AsyncFunctionDef name params body lineno end_lineno =>
      visit_AsyncFunctionDef name params body lineno end_lineno self
  | ClassDef name body lineno end_lineno =>
      visit_ClassDef (fold_left (fun st child => visit child st) body)
        name body lineno end_lineno self
  | Expr _ => self
  | Other children => fold_left (fun st child => visit child st) children self
  end.

Definition generic_visit (children : list stmt) (self : DocstringExtractor)
    : DocstringExtractor :=
  fold_left (fun st child => visit child st) children self.

Definition visit_Module (node : Module) (self : DocstringExtractor)
    : DocstringExtractor :=
  let ents := entities self in
  let self1 :=
    {| entities := {| module := {| m_docstring := get_docstring (body node);
                                   m_line := m_line (module ents);
                                   m_name := m_name (module ents) |};
                      classes := classes ents;
                      functions := functions ents |};
       _current_class := _current_class self |} in
  generic_visit (body node) self1.

Definition extract (tree : Module) : Entities :=
  entities (visit_Module tree __init__).

End Extractor.

(** ** Files, as [open] and [os.path.exists] see them

    A path is absent from the map, or names something that exists but
    cannot be opened and read as text, or names a text file.  A text file
    comes with its lines, as [readlines] returns them, and with what
    [ast.parse] makes of its text: a tree, or a syntax error. *)

Inductive file : Type :=
| Unreadable
| Readable (lines : list string) (tree : option Ast.Module).

Abbreviation filesystem := (gmap string file).

Definition exists_ (fs : filesystem) (file_path : string) : bool :=
  match fs !! file_path with Some _ => true | None => false end.

(** [open(file_path).readlines()]. *)
Definition readlines (fs : filesystem) (file_path : string)
    : result (list string) :=
  match fs !! file_path with
  | None => Raise FileNotFoundError
  | Some Unreadable => Raise PermissionError
  | Some (Readable lines _) => Ok lines
  end.

(** [ast.parse(open(file_path).read())]. *)
Definition parse_file (fs : filesystem) (file_path : string)
    : result Ast.Module :=
  match fs !! file_path with
  | None => Raise FileNotFoundError
  | Some Unreadable => Raise PermissionError
  | Some (Readable _ None) => Raise SyntaxError
  | Some (Readable _ (Some tree)) => Ok tree
  end.

Definition analyze_file (fs : filesystem) (file_path : string)
    : result Entities :=
  tree ← parse_file fs file_path;
  Ok (Extractor.extract tree).

(** ** [get_entity_list] *)

Inductive entity_type : Type := Function | Class | Method.

Record entity_row : Type := {
  Function_Name : string;
  Type_ : entity_type;
  Start_Line : nat;
  End_Line : nat;
  Has_Docstring : bool
}.

Definition function_row (kind : entity_type) (f : func_info) : entity_row :=
  {| Function_Name := f_name f; Type_ := kind; Start_Line := f_line f;
     End_Line := f_end_line f; Has_Docstring := truthy (f_docstring f) |}.

Definition class_row (cls : class_info) : entity_row :=
  {| Function_Name := c_name cls; Type_ := Class; Start_Line := c_line cls;
     End_Line := c_end_line cls; Has_Docstring := truthy (c_docstring cls) |}.

(** The three loops of [get_entity_list], each appending to [entity_list]. *)
Definition flatten (ents : Entities) : list entity_row :=
  let entity_list :=
    fold_left (fun acc f => acc ++ [function_row Function f])
      (functions ents) [] in
  fold_left
    (fun acc cls =>
       fold_left (fun acc' m => acc' ++ [function_row Method m])
         (c_methods cls) (acc ++ [class_row cls]))
    (classes ents) entity_list.

Definition get_entity_list (fs : filesystem) (file_path : string)
    : result (list entity_row) :=
  ents ← analyze_file fs file_path;
  Ok (flatten ents).

(** ** [generate_google_docstring] *)

Definition list_truthy {A : Type} (l : option (list A)) : bool :=
  match l with
  | Some (_ :: _) => true
  | _ => false
  end.

Definition generate_google_docstring (name : string)
    (args : option (list string)) (is_class : bool) (indent : nat) : string :=
  let prefix := PyStr.spaces indent in
  let doc :=
    prefix +:+ PyStr.triple_quote
      +:+ PyStr.capitalize (PyStr.replace "_" " " name)
      +:+ "." +:+ PyStr.nl +:+ PyStr.nl in
  let doc :=
    if list_truthy args then
      fold_left
        (fun doc arg =>
           doc +:+ (prefix +:+ "    " +:+ arg +:+ ": Description of " +:+ arg
                      +:+ "." +:+ PyStr.nl))
        (default [] args)
        (doc +:+ (prefix +:+ "Args:" +:+ PyStr.nl))
    else doc in
  let doc :=
    if negb is_class then
      (doc +:+ (PyStr.nl +:+ prefix +:+ "Returns:" +:+ PyStr.nl))
        +:+ (prefix +:+ "    Description of the return value." +:+ PyStr.nl)
    else doc in
  doc +:+ (prefix +:+ PyStr.triple_quote).

(** ** [generate_coverage_report] *)

Module Float.

Definition of_Z (n : Z) : float := SF2Prim (binary_normalize prec emax n 0 false).

(** [float(n)] for a count [n]; exact below [2^53]. *)
Definition of_nat (n : nat) : float := of_Z (Z.of_nat n).

(** [a / b] on two [int]s (true division); correctly rounded for operands
    below [2^53]. *)
Definition truediv (a b : nat) : float := PrimFloat.div (of_nat a) (of_nat b).

(** Nearest integer to [num / den] for [den > 0], ties to the even one. *)
Definition round_half_even (num den : Z) : Z :=
  let q := (num / den)%Z in
  let r := (num mod den)%Z in
  if (2 * r <? den)%Z then q
  else if (den <? 2 * r)%Z then (q + 1)%Z
  else if Z.even q then q else (q + 1)%Z.

(** [round(x, 2)]: the float nearest to the decimal with two places that is
    nearest to the exact value of [x], ties to even. *)
Definition round2 (x : float) : float :=
  match Prim2SF x with
  | S754_finite s m e =>
      let num := (Z.pos m * 100)%Z in
      let n := if (0 <=? e)%Z then (num * 2 ^ e)%Z
               else round_half_even num (2 ^ (- e)) in
      let r := PrimFloat.div (of_Z n) (of_Z 100) in
      if s then PrimFloat.opp r else r
  | _ => x
  end.

End Float.

Record file_stats : Type := { total : nat; documented : nat }.

Record file_detail : Type := { coverage : float; stats : file_stats }.

(** The report while the loop over the files runs. *)
Record partial_report : Type := {
  p_files_analyzed : nat;
  p_total_entities : nat;
  p_documented_entities : nat;
  p_details : gmap string file_detail
}.

Record coverage_report : Type := {
  files_analyzed : nat;
  total_entities : nat;
  documented_entities : nat;
  details : gmap string file_detail;
  overall_coverage : float
}.

(** The closure [check(item)]. *)
Definition check (docstring : option string) (st : file_stats) : file_stats :=
  {| total := total st + 1;
     documented := if truthy docstring then documented st + 1
                   else documented st |}.

Definition count_entities (ents : Entities) : file_stats :=
  let st := {| total := 0; documented := 0 |} in
  let st := check (m_docstring (module ents)) st in
  let st :=
    fold_left
      (fun st cls =>
         fold_left (fun st m => check (f_docstring m) st)
           (c_methods cls) (check (c_docstring cls) st))
      (classes ents) st in
  fold_left (fun st f => check (f_docstring f) st) (functions ents) st.

(** [documented / total * 100 if total > 0 else 0.0], then [round(_, 2)]. *)
Definition percentage (documented total : nat) : float :=
  Float.round2
    (if 0 <? total then PrimFloat.mul (Float.truediv documented total) (Float.of_Z 100)
     else 0%float).

Fixpoint report_loop (fs : filesystem) (files : list string)
    (report : partial_report) : result partial_report :=
  match files with
  | [] => Ok report
  | file_path :: files' =>
      if negb (exists_ fs file_path) then report_loop fs files' report
      else
        ents ← analyze_file fs file_path;
        let st := count_entities ents in
        report_loop fs files'
          {| p_files_analyzed := p_files_analyzed report;
             p_total_entities := p_total_entities report + total st;
             p_documented_entities :=
               p_documented_entities report + documented st;
             p_details :=
               <[file_path := {| coverage := percentage (documented st) (total st);
                                 stats := st |}]> (p_details report) |}
  end.

Definition generate_coverage_report (fs : filesystem) (files : list string)
    : result coverage_report :=
  report ← report_loop fs files
    {| p_files_analyzed := length files; p_total_entities := 0;
       p_documented_entities := 0; p_details := ∅ |};
  Ok {| files_analyzed := p_files_analyzed report;
        total_entities := p_total_entities report;
        documented_entities := p_documented_entities report;
        details := p_details report;
        overall_coverage :=
          if 0 <? p_total_entities report
          then Float.round2
                 (PrimFloat.mul
                    (Float.truediv (p_documented_entities report)
                       (p_total_entities report))
                    (Float.of_Z 100))
          else 0%float |}.

(** ** [apply_missing_docstrings] *)

Module Inserter.

(** A pending insertion: the line number of the declaration (0 for the
    module) and the text to insert. *)
Abbreviation pending := (nat * string)%type.

(** [lines[line - 1]]; with [line = 0] the index is [-1], the last line. *)
Definition def_line_of (lines : list string) (line : nat) : result string :=
  match line with
  | 0 => match last lines with Some l => Ok l | None => Raise IndexError end
  | S k => match lines !! k with Some l => Ok l | None => Raise IndexError end
  end.

(** [len(def_line) - len(def_line.lstrip())]. *)
Definition indent_of (def_line : string) : nat :=
  String.length def_line - String.length (PyStr.lstrip def_line).

(** A [for] loop whose body may raise. *)
Fixpoint for_each {A S : Type} (body : S -> A -> result S) (items : list A)
    (s : S) : result S :=
  match items with
  | [] => Ok s
  | x :: items' => s' ← body s x; for_each body items' s'
  end.

Definition add_callable (lines : list string) (to_add : list pending)
    (f : func_info) : result (list pending) :=
  if negb (truthy (f_docstring f)) then
    def_line ← def_line_of lines (f_line f);
    let indent := indent_of def_line in
    Ok (to_add ++ [(f_line f,
                    generate_google_docstring (f_name f) (Some (f_args f))
                      false (indent + 4))])
  else Ok to_add.

Definition add_class (lines : list string) (to_add : list pending)
    (cls : class_info) : result (list pending) :=
  to_add ←
    (if negb (truthy (c_docstring cls)) then
       def_line ← def_line_of lines (c_line cls);
       let indent := indent_of def_line in
       Ok (to_add ++ [(c_line cls,
                       generate_google_docstring (c_name cls) None
                         true (indent + 4))])
     else Ok to_add);
  for_each (add_callable lines) (c_methods cls) to_add.

Definition module_docstring (file_path : string) : string :=
  PyStr.triple_quote +:+ PyStr.capitalize (PyStr.basename file_path)
    +:+ " module." +:+ PyStr.triple_quote +:+ PyStr.nl.

Definition add_module (file_path : string) (to_add : list pending)
    (m : module_info) : list pending :=
  if negb (truthy (m_docstring m)) then
    to_add ++ [(0, module_docstring file_path)]
  else to_add.

(** The list [to_add] before it is sorted. *)
Definition collect (file_path : string) (ents : Entities)
    (lines : list string) : result (list pending) :=
  to_add ← for_each (add_callable lines) (functions ents) [];
  to_add ← for_each (add_class lines) (classes ents) to_add;
  Ok (add_module file_path to_add (module ents)).

(** [to_add.sort(key=lambda x: x[0], reverse=True)]: descending by line
    number, items with the same line number keeping their order. *)
Fixpoint insert_desc (p : pending) (sorted : list pending) : list pending :=
  match sorted with
  | [] => [p]
  | q :: sorted' =>
      if q.1 <=? p.1 then p :: q :: sorted'
      else q :: insert_desc p sorted'
  end.

Fixpoint sort_desc (to_add : list pending) : list pending :=
  match to_add with
  | [] => []
  | p :: to_add' => insert_desc p (sort_desc to_add')
  end.

Definition has_colon (line : string) : bool := PyStr.contains PyStr.colon line.

(** [while curr_idx < len(lines) and ":" not in lines[curr_idx]: curr_idx += 1],
    run on the lines from [curr_idx] on. *)
Fixpoint scan (rest : list string) (curr_idx : nat) : nat :=
  match rest with
  | [] => curr_idx
  | line :: rest' =>
      if has_colon line then curr_idx else scan rest' (S curr_idx)
  end.

Definition header_end (lines : list string) (line_idx : nat) : nat :=
  scan (drop (line_idx - 1) lines) (line_idx - 1).

(** [lines.insert(i, x)]; an index past the end appends. *)
Definition list_insert_at {A : Type} (i : nat) (x : A) (l : list A) : list A :=
  take i l ++ x :: drop i l.

(** One round of the insertion loop. *)
Definition insert_doc (lines : list string) (p : pending) : list string :=
  let '(line_idx, doc_str) := p in
  if line_idx =? 0 then list_insert_at 0 (doc_str +:+ PyStr.nl) lines
  else
    let curr_idx := header_end lines line_idx in
    list_insert_at (curr_idx + 1) (doc_str +:+ PyStr.nl) lines.

Definition apply_insertions (to_add : list pending) (lines : list string)
    : list string :=
  fold_left insert_doc (sort_desc to_add) lines.

(** The lines that [apply_missing_docstrings] writes back to the file. *)
Definition apply_missing_docstrings (fs : filesystem) (file_path : string)
    : result (list string) :=
  ents ← analyze_file fs file_path;
  lines ← readlines fs file_path;
  to_add ← collect file_path ents lines;
  Ok (apply_insertions to_add lines).

End Inserter.

(** * Properties *)

(** ** What one traversal records

    The visitor is compared with two plain recursive functions over the
    tree: the callables that a body owns (those not inside a class of the
    body, and not inside another callable), and the classes met in a body,
    outermost first, each with the callables its own body owns. *)

Module Inventory.

Import Ast Extractor.

Fixpoint own_callables (node : stmt) : list func_info :=
  match node with
  | FunctionDef name params body lineno end_lineno =>
      [make_func_info name params body lineno end_lineno]
  | AsyncFunctionDef name params body lineno end_lineno =>
      [make_func_info name params body lineno end_lineno]
  | ClassDef _ _ _ _ => []
  | Expr _ => []
  | Other children => flat_map own_callables children
  end.

Definition with_methods (methods : list func_info) (cls : class_info)
    : class_info :=
  {| c_name := c_name cls; c_docstring := c_docstring cls;
     c_line := c_line cls; c_end_line := c_end_line cls;
     c_methods := c_methods cls ++ methods |}.

Fixpoint class_decls (node : stmt) : list class_info :=
  match node with
  | ClassDef name body lineno end_lineno =>
      with_methods (flat_map own_callables body)
        (make_class_info name body lineno end_lineno)
      :: flat_map class_decls body
  | Other children => flat_map class_decls children
  | _ => []
  end.

(** The state after recording callables [fs] for the current owner and
    appending the finished classes [cs]. *)
Definition record (fs : list func_info) (cs : list class_info)
    (self : DocstringExtractor) : DocstringExtractor :=
  let ents := entities self in
  {| entities :=
       {| module := module ents;
          classes :=
            match _current_class self with
            | Some ref => alter (with_methods fs) ref (classes ents)
            | None => classes ents
            end ++ cs;
          functions :=
            match _current_class self with
            | Some _ => functions ents
            | None => functions ents ++ fs
            end |};
     _current_class := _current_class self |}.

(** The reference held in [_current_class] points into the list. *)
Definition valid (self : DocstringExtractor) : Prop :=
  match _current_class self with
  | Some ref => ref < length (classes (entities self))
  | None => True
  end.

Lemma with_methods_nil cls : with_methods [] cls = cls.
Proof. destruct cls; unfold with_methods; simpl. by rewrite app_nil_r. Qed.

Lemma with_methods_app fs1 fs2 cls :
  with_methods fs2 (with_methods fs1 cls) = with_methods (fs1 ++ fs2) cls.
Proof. destruct cls; unfold with_methods; simpl. by rewrite app_assoc. Qed.

Lemma record_nil self : record [] [] self = self.
Proof.
  destruct self as [[m cs fs] [ref|]]; unfold record; simpl.
  - rewrite app_nil_r, list_alter_id; [done | apply with_methods_nil].
  - by rewrite !app_nil_r.
Qed.

Lemma record_valid fs cs self : valid self -> valid (record fs cs self).
Proof.
  destruct self as [[m cls fns] [ref|]]; unfold valid, record; simpl; [|done].
  intros Hlt. rewrite length_app, length_alter. lia.
Qed.

Lemma record_record fs1 cs1 fs2 cs2 self :
  valid self ->
  record fs2 cs2 (record fs1 cs1 self) = record (fs1 ++ fs2) (cs1 ++ cs2) self.
Proof.
  destruct self as [[m cls fns] [ref|]]; unfold valid, record; simpl.
  - intros Hlt. do 2 f_equal.
    rewrite alter_app_l by (rewrite length_alter; lia).
    rewrite list_alter_alter_eq, <- app_assoc. f_equal.
    apply list_alter_ext; [|done]. intros x _. apply with_methods_app.
  - intros _. by rewrite !app_assoc.
Qed.

Lemma visit_callable_record name params body lineno end_lineno self :
  _visit_callable name params body lineno end_lineno self
  = record [make_func_info name params body lineno end_lineno] [] self.
Proof.
  destruct self as [[m cls fns] [ref|]];
    unfold _visit_callable, record; simpl; by rewrite app_nil_r.
Qed.

Lemma generic_visit_record children self :
  Forall (fun node => forall self, valid self ->
            visit node self
            = record (own_callables node) (class_decls node) self) children ->
  valid self ->
  generic_visit children self
  = record (flat_map own_callables children) (flat_map class_decls children)
      self.
Proof.
  unfold generic_visit. intros Hall. revert self.
  induction Hall as [|node children Hnode _ IH]; intros self Hvalid; simpl.
  - by rewrite record_nil.
  - rewrite Hnode by done. rewrite IH by by apply record_valid.
    by apply record_record.
Qed.

Lemma visit_record node :
  forall self, valid self ->
    visit node self = record (own_callables node) (class_decls node) self.
Proof.
  induction node as [name params body lineno end_lineno _
                    |name params body lineno end_lineno _
                    |name body lineno end_lineno IH
                    |value
                    |children IH] using stmt_ind_nested;
    intros self Hvalid.
  - apply visit_callable_record.
  - apply visit_callable_record.
  - change (visit (ClassDef name body lineno end_lineno) self)
      with (set_current_class (_current_class self)
              (generic_visit body
                 (enter_class (make_class_info name body lineno end_lineno)
                    self))).
    rewrite (generic_visit_record _ _ IH)
      by (unfold valid, enter_class; simpl; rewrite length_app; simpl; lia).
    destruct self as [[m cls fns] cur].
    unfold set_current_class, record, enter_class; simpl.
    f_equal. f_equal.
    + replace (length cls) with (length cls + 0) by lia.
      rewrite alter_app_r; simpl. rewrite <- app_assoc; simpl.
      f_equal. destruct cur as [ref|]; [|done].
      symmetry. apply list_alter_id, with_methods_nil.
    + destruct cur; [done | by rewrite app_nil_r].
  - simpl. by rewrite record_nil.
  - change (visit (Other children) self) with (generic_visit children self).
    by apply generic_visit_record.
Qed.

(** The inventory of a module, read off the tree. *)
Lemma extract_spec (tree : Module) :
  extract tree
  = {| module := {| m_docstring := get_docstring (body tree);
                    m_line := 1; m_name := "Module" |};
       classes := flat_map class_decls (body tree);
       functions := flat_map own_callables (body tree) |}.
Proof.
  unfold extract, visit_Module.
  rewrite generic_visit_record.
  - reflexivity.
  - apply Forall_forall. intros node _. apply visit_record.
  - exact I.
Qed.

End Inventory.

(** ** The flat entity list *)

Module Flattener.

Import Ast Extractor Inventory.

(** The rows of one class: its own row, then one row per method. *)
Definition class_block (cls : class_info) : list entity_row :=
  class_row cls :: map (function_row Method) (c_methods cls).

Lemma fold_left_snoc {A B : Type} (f : A -> B) (l : list A) (acc : list B) :
  fold_left (fun acc x => acc ++ [f x]) l acc = acc ++ map f l.
Proof.
  revert acc. induction l as [|x l IH]; intros acc; simpl.
  - by rewrite app_nil_r.
  - rewrite IH, <- app_assoc. reflexivity.
Qed.

Lemma flatten_eq (ents : Entities) :
  flatten ents
  = map (function_row Function) (functions ents)
    ++ flat_map class_block (classes ents).
Proof.
  unfold flatten. rewrite fold_left_snoc. simpl.
  generalize (map (function_row Function) (functions ents)) as acc.
  induction (classes ents) as [|cls l IH]; intros acc; simpl.
  - by rewrite app_nil_r.
  - rewrite fold_left_snoc, IH. unfold class_block.
    rewrite <- !app_assoc. reflexivity.
Qed.

(** Specification wording: the declarations in depth-first pre-order, that
    is in the order of the source text, a class row being followed by the
    rows of everything declared in the class body. *)
Fixpoint preorder (in_class : bool) (node : stmt) : list entity_row :=
  match node with
  | FunctionDef name params body lineno end_lineno =>
      [function_row (if in_class then Method else Function)
         (make_func_info name params body lineno end_lineno)]
  | AsyncFunctionDef name params body lineno end_lineno =>
      [function_row (if in_class then Method else Function)
         (make_func_info name params body lineno end_lineno)]
  | ClassDef name body lineno end_lineno =>
      class_row (make_class_info name body lineno end_lineno)
      :: flat_map (preorder true) body
  | Expr _ => []
  | Other children => flat_map (preorder in_class) children
  end.

Definition is_function_row (r : entity_row) : bool :=
  match Type_ r with Function => true | _ => false end.

Lemma filter_flat_map {A B : Type} (p : B -> bool) (f : A -> list B)
    (l : list A) :
  List.filter p (flat_map f l) = flat_map (fun x => List.filter p (f x)) l.
Proof.
  induction l as [|x l IH]; simpl; [done|].
  by rewrite List.filter_app, IH.
Qed.

Lemma flat_map_ext_Forall {A B : Type} (f g : A -> list B) (l : list A) :
  Forall (fun x => f x = g x) l -> flat_map f l = flat_map g l.
Proof. induction 1 as [|x l Hx _ IH]; simpl; [done|]. by rewrite Hx, IH. Qed.

Lemma flat_map_nil {A B : Type} (f : A -> list B) (l : list A) :
  Forall (fun x => f x = []) l -> flat_map f l = [].
Proof. induction 1 as [|x l Hx _ IH]; simpl; [done|]. by rewrite Hx, IH. Qed.

Lemma map_flat_map {A B C : Type} (g : B -> C) (f : A -> list B) (l : list A) :
  map g (flat_map f l) = flat_map (fun x => map g (f x)) l.
Proof.
  induction l as [|x l IH]; simpl; [done|]. by rewrite map_app, IH.
Qed.

(** Inside a class nothing is a [Function] row. *)
Lemma preorder_in_class_no_function node :
  List.filter is_function_row (preorder true node) = [].
Proof.
  induction node as [? ? ? ? ? _|? ? ? ? ? _|? ? ? ? IH|?|? IH]
    using stmt_ind_nested; simpl; try done.
  - rewrite filter_flat_map. by apply flat_map_nil.
  - rewrite filter_flat_map. by apply flat_map_nil.
Qed.

(** The module-level callables are the [Function] rows of the pre-order. *)
Lemma preorder_functions node :
  List.filter is_function_row (preorder false node)
  = map (function_row Function) (own_callables node).
Proof.
  induction node as [? ? ? ? ? _|? ? ? ? ? _|? ? ? ? _|?|? IH]
    using stmt_ind_nested; simpl; try done.
  - rewrite filter_flat_map. apply flat_map_nil, Forall_forall.
    intros x _. apply preorder_in_class_no_function.
  - rewrite filter_flat_map, map_flat_map. by apply flat_map_ext_Forall.
Qed.

End Flattener.

(** ** Where each record comes from

    The definition sites of a tree, in source order, and the record the
    extractor makes of each. *)

Module Declarations.

Import Ast Extractor Inventory Flattener.

Record callable_site : Type := {
  s_async : bool;
  s_name : string;
  s_params : arguments;
  s_body : list stmt;
  s_lineno : nat;
  s_end_lineno : nat
}.

Record class_site : Type := {
  cs_name : string;
  cs_body : list stmt;
  cs_lineno : nat;
  cs_end_lineno : nat
}.

(** The callables a statement contributes to its owner. *)
Fixpoint callable_sites (node : stmt) : list callable_site :=
  match node with
  | FunctionDef name params body lineno end_lineno =>
      [{| s_async := false; s_name := name; s_params := params;
          s_body := body; s_lineno := lineno; s_end_lineno := end_lineno |}]
  | AsyncFunctionDef name params body lineno end_lineno =>
      [{| s_async := true; s_name := name; s_params := params;
          s_body := body; s_lineno := lineno; s_end_lineno := end_lineno |}]
  | ClassDef _ _ _ _ => []
  | Expr _ => []
  | Other children => flat_map callable_sites children
  end.

(** The classes of a statement, outermost first. *)
Fixpoint class_sites (node : stmt) : list class_site :=
  match node with
  | ClassDef name body lineno end_lineno =>
      {| cs_name := name; cs_body := body; cs_lineno := lineno;
         cs_end_lineno := end_lineno |}
      :: flat_map class_sites body
  | Other children => flat_map class_sites children
  | _ => []
  end.

Definition callable_of (site : callable_site) : func_info :=
  make_func_info (s_name site) (s_params site) (s_body site)
    (s_lineno site) (s_end_lineno site).

Definition class_of (site : class_site) : class_info :=
  {| c_name := cs_name site;
     c_docstring := get_docstring (cs_body site);
     c_line := cs_lineno site;
     c_end_line := cs_end_lineno site;
     c_methods := map callable_of (flat_map callable_sites (cs_body site)) |}.

Lemma own_callables_sites node :
  own_callables node = map callable_of (callable_sites node).
Proof.
  induction node as [? ? ? ? ? _|? ? ? ? ? _|? ? ? ? _|?|? IH]
    using stmt_ind_nested; simpl; try done.
  rewrite map_flat_map. by apply flat_map_ext_Forall.
Qed.

Lemma own_callables_sites_list (stmts : list stmt) :
  flat_map own_callables stmts = map callable_of (flat_map callable_sites stmts).
Proof.
  rewrite map_flat_map. apply flat_map_ext_Forall, Forall_forall.
  intros node _. apply own_callables_sites.
Qed.

Lemma class_decls_sites node :
  class_decls node = map class_of (class_sites node).
Proof.
  induction node as [? ? ? ? ? _|? ? ? ? ? _|name body ? ? IH|?|? IH]
    using stmt_ind_nested; simpl; try done.
  - f_equal.
    + unfold class_of, with_methods; simpl.
      by rewrite own_callables_sites_list.
    + rewrite map_flat_map. by apply flat_map_ext_Forall.
  - rewrite map_flat_map. by apply flat_map_ext_Forall.
Qed.

Lemma class_decls_sites_list (stmts : list stmt) :
  flat_map class_decls stmts = map class_of (flat_map class_sites stmts).
Proof.
  rewrite map_flat_map. apply flat_map_ext_Forall, Forall_forall.
  intros node _. apply class_decls_sites.
Qed.

(** The inventory in terms of the definition sites. *)
Lemma extract_sites (tree : Module) :
  extract tree
  = {| module := {| m_docstring := get_docstring (body tree);
                    m_line := 1; m_name := "Module" |};
       classes := map class_of (flat_map class_sites (body tree));
       functions := map callable_of (flat_map callable_sites (body tree)) |}.
Proof.
  rewrite extract_spec.
  by rewrite own_callables_sites_list, class_decls_sites_list.
Qed.

(** A body whose first statement is a bare string literal. *)
Definition string_literal_first (body : list stmt) : Prop :=
  exists text rest, body = Expr (Constant_str text) :: rest.

(** A body whose first statement is a bare string literal that is not empty
    once cleaned by [inspect.cleandoc]. *)
Definition documented_body (body : list stmt) : Prop :=
  exists text rest,
    body = Expr (Constant_str text) :: rest /\ Inspect.cleandoc text <> "".

Lemma nonempty_true s : PyStr.nonempty s = true <-> s <> "".
Proof. destruct s; simpl; split; intros; congruence. Qed.

Lemma truthy_get_docstring body :
  truthy (get_docstring body) = true <-> documented_body body.
Proof.
  unfold documented_body.
  destruct body as [|[| | |[text|]|] rest]; simpl;
    try (split; [discriminate | intros (? & ? & ? & ?); discriminate]).
  rewrite nonempty_true. split.
  - intros H. by exists text, rest.
  - intros (? & ? & Heq & H). by simplify_eq.
Qed.

(** Every parameter the source declares, in the order of the signature. *)
Definition declared_names (params : arguments) : list string :=
  posonlyargs params ++ args params ++ option_list (vararg params)
    ++ kwonlyargs params ++ option_list (kwarg params).

Lemma sublist_filter_std {A : Type} (p : A -> bool) (l : list A) :
  sublist (List.filter p l) l.
Proof.
  induction l as [|x l IH]; simpl; [done|].
  destruct (p x); by constructor.
Qed.

End Declarations.

(** ** Sample files *)

Module Samples.

Import Ast.

Definition line (s : string) : string := s +:+ PyStr.nl.

Definition positional (names : list string) : arguments :=
  {| posonlyargs := []; args := names; vararg := None; kwonlyargs := [];
     kwarg := None |}.

(** A statement that is neither a definition nor an expression statement
    and contains no statement ([return], [pass], an assignment). *)
Definition simple : stmt := Other [].

(** A class followed by a module-level function. *)
Definition shapes_lines : list string :=
  [line "class Shape:";
   line "    def area(self):";
   line "        return 0";
   line "def helper():";
   line "    return 1"].

Definition shapes_tree : Module :=
  {| body := [ClassDef "Shape"
                [FunctionDef "area" (positional ["self"]) [simple] 2 3] 1 3;
              FunctionDef "helper" (positional []) [simple] 4 5] |}.

Definition shapes_fs : filesystem :=
  {[ "shapes.py" := Readable shapes_lines (Some shapes_tree) ]}.

(** A function whose first statement is the empty string literal. *)
Definition empty_doc_lines : list string :=
  [line "def f():";
   line ("    " +:+ String PyStr.dquote (String PyStr.dquote ""));
   line "    return 1"].

Definition empty_doc_tree : Module :=
  {| body := [FunctionDef "f" (positional [])
                [Expr (Constant_str ""); simple] 1 3] |}.

(** [def f(a, *, key): return a]. *)
Definition keyword_only_tree : Module :=
  {| body := [FunctionDef "f"
                {| posonlyargs := []; args := ["a"]; vararg := None;
                   kwonlyargs := ["key"]; kwarg := None |}
                [simple] 1 1] |}.

End Samples.

(** ** Claims on the flat list, documentation presence and parameters *)

Module FlattenerClaims.

Import Ast Extractor Inventory Flattener Declarations Samples.

(** C5, as stated, fails: for a class followed by a module-level function
    the flat list starts with the function, while the depth-first pre-order
    of the source starts with the class. *)
Lemma get_entity_list_not_preorder :
  get_entity_list shapes_fs "shapes.py"
  <> Ok (flat_map (preorder false) (body shapes_tree)).
Proof. vm_compute. discriminate. Qed.

(** C5, amended: for every file that parses, [get_entity_list] emits first
    the module-level callables in source order (they are exactly the
    [Function] rows of the pre-order), then every class in source order,
    each class row immediately followed by the rows of the callables its
    body owns, in source order.  The list is a function of the tree. *)
Theorem get_entity_list_order (fs : filesystem) (file_path : string)
    (lines : list string) (tree : Module) :
  fs !! file_path = Some (Readable lines (Some tree)) ->
  let functions_first :=
    map (function_row Function)
      (map callable_of (flat_map callable_sites (body tree))) in
  get_entity_list fs file_path
  = Ok (functions_first
        ++ flat_map class_block
             (map class_of (flat_map class_sites (body tree))))
  /\ functions_first
     = List.filter is_function_row (flat_map (preorder false) (body tree)).
Proof.
  intros Hfile functions_first. split.
  - unfold get_entity_list, analyze_file, parse_file. rewrite Hfile. simpl.
    rewrite flatten_eq, extract_sites. reflexivity.
  - unfold functions_first. rewrite <- own_callables_sites_list.
    rewrite filter_flat_map, map_flat_map.
    apply flat_map_ext_Forall, Forall_forall. intros node _.
    symmetry. apply preorder_functions.
Qed.

Lemma get_entity_list_order_witness :
  get_entity_list shapes_fs "shapes.py"
  = Ok (map (function_row Function)
          (map callable_of (flat_map callable_sites (body shapes_tree)))
        ++ flat_map class_block
             (map class_of (flat_map class_sites (body shapes_tree)))).
Proof.
  apply (get_entity_list_order shapes_fs "shapes.py" shapes_lines shapes_tree).
  reflexivity.
Defined.

(** C6, as stated, fails: a function whose first statement is the empty
    string literal is recorded as having no documentation. *)
Lemma empty_literal_not_documented :
  string_literal_first [Expr (Constant_str ""); simple]
  /\ flatten (extract empty_doc_tree)
     = [{| Function_Name := "f"; Type_ := Function; Start_Line := 1;
           End_Line := 3; Has_Docstring := false |}].
Proof. split; [by eexists _, _ | reflexivity]. Qed.

(** C6, amended: the module, every class and every callable of the
    inventory is recorded as documented exactly when the first statement of
    its body is a bare string literal whose text, cleaned by
    [inspect.cleandoc], is not empty. *)
Theorem has_documentation_iff (tree : Module) :
  let ents := extract tree in
  (truthy (m_docstring (module ents)) = true <-> documented_body (body tree))
  /\ functions ents = map callable_of (flat_map callable_sites (body tree))
  /\ classes ents = map class_of (flat_map class_sites (body tree))
  /\ (forall site : callable_site,
        Has_Docstring (function_row Function (callable_of site)) = true
        <-> documented_body (s_body site))
  /\ (forall site : class_site,
        (Has_Docstring (class_row (class_of site)) = true
         <-> documented_body (cs_body site))
        /\ c_methods (class_of site)
           = map callable_of (flat_map callable_sites (cs_body site))).
Proof.
  intros ents. unfold ents. rewrite extract_sites. simpl.
  split; [apply truthy_get_docstring|].
  split; [done|]. split; [done|]. split.
  - intros site. apply truthy_get_docstring.
  - intros site. split; [apply truthy_get_docstring | done].
Qed.

(** C9, as stated, fails: of [def f(a, *, key)] only [a] is recorded. *)
Lemma keyword_only_parameter_dropped :
  map f_args (functions (extract keyword_only_tree)) = [["a"]]
  /\ map (fun site => List.filter (fun a => negb (is_receiver a))
                        (declared_names (s_params site)))
       (flat_map callable_sites (body keyword_only_tree))
     = [["a"; "key"]].
Proof. split; reflexivity. Qed.

(** C9, amended: [def] and [async def] are recorded alike; the recorded
    parameters of a callable are its positional-or-keyword parameters
    ([args.args]), in order, without those named [self] or [cls].
    Positional-only, keyword-only and starred parameters are not recorded. *)
Theorem parameters_are_positional_minus_receivers (tree : Module) :
  let ents := extract tree in
  functions ents = map callable_of (flat_map callable_sites (body tree))
  /\ classes ents = map class_of (flat_map class_sites (body tree))
  /\ (forall name params body lineno end_lineno self,
        visit (AsyncFunctionDef name params body lineno end_lineno) self
        = visit (FunctionDef name params body lineno end_lineno) self)
  /\ (forall site : callable_site,
        f_args (callable_of site)
        = List.filter (fun a => negb (is_receiver a)) (args (s_params site))
        /\ sublist (f_args (callable_of site)) (args (s_params site))
        /\ ("self" ∉ f_args (callable_of site))
        /\ ("cls" ∉ f_args (callable_of site))).
Proof.
  intros ents. unfold ents. rewrite extract_sites. simpl.
  split; [done|]. split; [done|]. split; [done|].
  intros site. unfold callable_of; simpl.
  split; [done|]. split; [apply sublist_filter_std|].
  split; intros Hin; apply list_elem_of_In, List.filter_In in Hin;
    destruct Hin as [_ Hneg]; by vm_compute in Hneg.
Qed.

End FlattenerClaims.

(** ** The coverage report *)

Module Coverage.

Import Ast Extractor Inventory Flattener Declarations.

(** The documentation entries of all declarations of a tree: the module,
    then every class followed by its callables, then the module-level
    callables. *)
Definition class_docstrings (site : class_site) : list (option string) :=
  get_docstring (cs_body site)
  :: map (fun s => get_docstring (s_body s))
       (flat_map callable_sites (cs_body site)).

Definition declaration_docstrings (tree : Module) : list (option string) :=
  get_docstring (body tree)
  :: flat_map class_docstrings (flat_map class_sites (body tree))
  ++ map (fun s => get_docstring (s_body s))
       (flat_map callable_sites (body tree)).

Definition tree_stats (tree : Module) : file_stats :=
  {| total := length (declaration_docstrings tree);
     documented := length (List.filter truthy (declaration_docstrings tree)) |}.

Definition checks (docstrings : list (option string)) (st : file_stats)
    : file_stats :=
  fold_left (fun st d => check d st) docstrings st.

Lemma checks_app ds1 ds2 st : checks (ds1 ++ ds2) st = checks ds2 (checks ds1 st).
Proof. apply fold_left_app. Qed.

Lemma checks_eq ds st :
  checks ds st
  = {| total := total st + length ds;
       documented := documented st + length (List.filter truthy ds) |}.
Proof.
  revert st. induction ds as [|d ds IH]; intros [t n]; simpl.
  - f_equal; lia.
  - unfold checks in IH. rewrite IH. unfold check; simpl.
    destruct (truthy d); simpl; f_equal; lia.
Qed.

Lemma fold_check_map {A : Type} (f : A -> option string) (l : list A) st :
  fold_left (fun st x => check (f x) st) l st = checks (map f l) st.
Proof. revert st. induction l as [|x l IH]; intros st; simpl; [done|]. apply IH. Qed.

Lemma fold_check_classes (cls : list class_info) st :
  fold_left
    (fun st c =>
       fold_left (fun st m => check (f_docstring m) st) (c_methods c)
         (check (c_docstring c) st))
    cls st
  = checks (flat_map (fun c => c_docstring c :: map f_docstring (c_methods c))
              cls) st.
Proof.
  revert st. induction cls as [|c cls IH]; intros st; simpl; [done|].
  rewrite IH, fold_check_map, checks_app. reflexivity.
Qed.

Lemma count_entities_eq (ents : Entities) :
  count_entities ents
  = checks (m_docstring (module ents)
            :: flat_map (fun c => c_docstring c :: map f_docstring (c_methods c))
                 (classes ents)
            ++ map f_docstring (functions ents))
      {| total := 0; documented := 0 |}.
Proof.
  unfold count_entities.
  rewrite fold_check_map, fold_check_classes.
  change (?d :: ?l1 ++ ?l2) with ([d] ++ l1 ++ l2).
  by rewrite !checks_app.
Qed.

Lemma class_docstrings_of (site : class_site) :
  c_docstring (class_of site) :: map f_docstring (c_methods (class_of site))
  = class_docstrings site.
Proof. unfold class_docstrings, class_of; simpl. by rewrite map_map. Qed.

Lemma flat_map_map {A B C : Type} (f : B -> list C) (g : A -> B) (l : list A) :
  flat_map f (map g l) = flat_map (fun x => f (g x)) l.
Proof. induction l as [|x l IH]; simpl; [done|]. by rewrite IH. Qed.

Lemma count_entities_extract (tree : Module) :
  count_entities (extract tree) = tree_stats tree.
Proof.
  rewrite count_entities_eq, extract_sites, checks_eq.
  cbn [module classes functions m_docstring total documented].
  rewrite flat_map_map, map_map.
  rewrite (flat_map_ext_Forall _ class_docstrings)
    by (apply Forall_forall; intros site _; apply class_docstrings_of).
  reflexivity.
Qed.

(** A parsed file always counts its module. *)
Lemma tree_stats_total_pos (tree : Module) : 1 <= total (tree_stats tree).
Proof. unfold tree_stats, declaration_docstrings; cbn [total length]. lia. Qed.

Lemma tree_stats_documented_le (tree : Module) :
  documented (tree_stats tree) <= total (tree_stats tree).
Proof. unfold tree_stats; cbn [total documented]. apply List.filter_length_le. Qed.

(** The number of declarations of a tree: one module, its classes, the
    callables of the classes and the module-level callables. *)
Lemma tree_stats_total (tree : Module) :
  total (tree_stats tree)
  = 1 + length (flat_map class_sites (body tree))
    + sum_list (map (fun site => length (flat_map callable_sites (cs_body site)))
                  (flat_map class_sites (body tree)))
    + length (flat_map callable_sites (body tree)).
Proof.
  unfold tree_stats, declaration_docstrings; simpl.
  rewrite length_app, length_map.
  induction (flat_map class_sites (body tree)) as [|site l IH]; simpl; [lia|].
  rewrite length_app, length_map in *. lia.
Qed.

Lemma round2_zero : Float.round2 0%float = 0%float.
Proof. reflexivity. Qed.

(** The ratio-and-round rule. *)
Definition ratio (documented total : nat) : float :=
  Float.round2
    (PrimFloat.mul (Float.truediv documented total) (Float.of_Z 100)).

Lemma percentage_eq (documented total : nat) :
  percentage documented total
  = if 0 <? total then ratio documented total else 0%float.
Proof. unfold percentage, ratio. destruct (0 <? total); [done | apply round2_zero]. Qed.

(** What one analysed file contributes. *)
Definition file_counts (fs : filesystem) (file_path : string) : file_stats :=
  match fs !! file_path with
  | Some (Readable _ (Some tree)) => tree_stats tree
  | _ => {| total := 0; documented := 0 |}
  end.

Definition file_entry (st : file_stats) : file_detail :=
  {| coverage := percentage (documented st) (total st); stats := st |}.

(** A path the loop can get past: missing, or readable and parsed. *)
Definition analysable (fs : filesystem) (file_path : string) : Prop :=
  match fs !! file_path with
  | None => True
  | Some (Readable _ (Some _)) => True
  | _ => False
  end.

Definition add_details (fs : filesystem) (files : list string)
    (m : gmap string file_detail) : gmap string file_detail :=
  fold_left
    (fun m p => if exists_ fs p then <[p := file_entry (file_counts fs p)]> m
                else m)
    files m.

(** One round of the loop, by what the file system holds at the path. *)
Lemma report_loop_missing fs p files report :
  fs !! p = None ->
  report_loop fs (p :: files) report = report_loop fs files report.
Proof. intros Hfs. simpl. unfold exists_. by rewrite Hfs. Qed.

Lemma report_loop_unreadable fs p files report :
  fs !! p = Some Unreadable ->
  report_loop fs (p :: files) report = Raise PermissionError.
Proof.
  intros Hfs. simpl. unfold exists_, analyze_file, parse_file. by rewrite Hfs.
Qed.

Lemma report_loop_syntax_error fs p lines files report :
  fs !! p = Some (Readable lines None) ->
  report_loop fs (p :: files) report = Raise SyntaxError.
Proof.
  intros Hfs. simpl. unfold exists_, analyze_file, parse_file. by rewrite Hfs.
Qed.

Lemma report_loop_parsed fs p lines tree files report :
  fs !! p = Some (Readable lines (Some tree)) ->
  report_loop fs (p :: files) report
  = report_loop fs files
      {| p_files_analyzed := p_files_analyzed report;
         p_total_entities := p_total_entities report + total (tree_stats tree);
         p_documented_entities :=
           p_documented_entities report + documented (tree_stats tree);
         p_details :=
           <[p := file_entry (tree_stats tree)]> (p_details report) |}.
Proof.
  intros Hfs. cbn [report_loop].
  unfold exists_, analyze_file, parse_file. rewrite Hfs.
  cbn [negb mbind result_bind]. by rewrite count_entities_extract.
Qed.

Lemma file_counts_parsed fs p lines tree :
  fs !! p = Some (Readable lines (Some tree)) ->
  file_counts fs p = tree_stats tree.
Proof. intros Hfs. unfold file_counts. by rewrite Hfs. Qed.

Lemma file_counts_missing fs p :
  fs !! p = None -> file_counts fs p = {| total := 0; documented := 0 |}.
Proof. intros Hfs. unfold file_counts. by rewrite Hfs. Qed.

Lemma add_details_cons fs p files m :
  add_details fs (p :: files) m
  = add_details fs files
      (if exists_ fs p then <[p := file_entry (file_counts fs p)]> m else m).
Proof. reflexivity. Qed.

Lemma report_loop_ok (fs : filesystem) (files : list string) :
  Forall (analysable fs) files ->
  forall report,
    report_loop fs files report
    = Ok {| p_files_analyzed := p_files_analyzed report;
            p_total_entities :=
              p_total_entities report
              + sum_list (map (fun p => total (file_counts fs p)) files);
            p_documented_entities :=
              p_documented_entities report
              + sum_list (map (fun p => documented (file_counts fs p)) files);
            p_details := add_details fs files (p_details report) |}.
Proof.
  induction 1 as [|p files Hp _ IH]; intros report.
  - destruct report as [fa t d m]. cbn. f_equal. f_equal; lia.
  - unfold analysable in Hp. rewrite add_details_cons.
    cbn [map sum_list sum_list_with]. unfold exists_.
    destruct (fs !! p) as [[|lines [tree|]]|] eqn:Hfs; try done.
    + rewrite (report_loop_parsed _ _ _ _ _ _ Hfs), IH.
      rewrite (file_counts_parsed _ _ _ _ Hfs).
      cbn [p_files_analyzed p_total_entities p_documented_entities p_details].
      unfold id. f_equal. f_equal; lia.
    + rewrite (report_loop_missing _ _ _ _ Hfs), IH.
      rewrite (file_counts_missing _ _ Hfs).
      cbn [total documented]. unfold id. f_equal; f_equal; lia.
Qed.

Lemma add_details_other fs files m p :
  p ∉ files \/ exists_ fs p = false ->
  add_details fs files m !! p = m !! p.
Proof.
  revert m. induction files as [|q files IH]; intros m Hp; [done|].
  rewrite add_details_cons, IH.
  - destruct (exists_ fs q) eqn:Hq; [|done].
    apply lookup_insert_ne. intros ->.
    destruct Hp as [Hp|Hp]; [apply Hp; left | congruence].
  - destruct Hp as [Hp|Hp]; [left | by right].
    intros Hin. apply Hp. by right.
Qed.

Lemma add_details_lookup fs files m p :
  p ∈ files -> exists_ fs p = true ->
  add_details fs files m !! p = Some (file_entry (file_counts fs p)).
Proof.
  revert m. induction files as [|q files IH]; intros m Hin Hp.
  - by apply elem_of_nil in Hin.
  - rewrite add_details_cons.
    destruct (decide (p ∈ files)) as [Hin'|Hout]; [by apply IH|].
    apply elem_of_cons in Hin as [->|Hin]; [|done].
    rewrite add_details_other by by left.
    rewrite Hp. apply lookup_insert_eq.
Qed.

(** The last step of [generate_coverage_report]. *)
Definition finish (report : partial_report) : coverage_report :=
  {| files_analyzed := p_files_analyzed report;
     total_entities := p_total_entities report;
     documented_entities := p_documented_entities report;
     details := p_details report;
     overall_coverage :=
       if 0 <? p_total_entities report
       then ratio (p_documented_entities report) (p_total_entities report)
       else 0%float |}.

Definition start (files : list string) : partial_report :=
  {| p_files_analyzed := length files; p_total_entities := 0;
     p_documented_entities := 0; p_details := ∅ |}.

Lemma generate_coverage_report_eq fs files :
  generate_coverage_report fs files
  = finish <$> report_loop fs files (start files).
Proof.
  unfold generate_coverage_report, start.
  by destruct (report_loop fs files _).
Qed.

Definition with_files_analyzed (n : nat) (report : partial_report)
    : partial_report :=
  {| p_files_analyzed := n;
     p_total_entities := p_total_entities report;
     p_documented_entities := p_documented_entities report;
     p_details := p_details report |}.

(** The loop never looks at [files_analyzed]. *)
Lemma report_loop_files_analyzed fs files n report :
  report_loop fs files (with_files_analyzed n report)
  = with_files_analyzed n <$> report_loop fs files report.
Proof.
  revert report. induction files as [|p files IH]; intros report; [done|].
  cbn [report_loop]. destruct (negb (exists_ fs p)); [apply IH|].
  destruct (analyze_file fs p) as [ents|e]; [|done].
  cbn [mbind result_bind]. rewrite <- IH. reflexivity.
Qed.

Lemma report_loop_app fs files1 files2 report :
  report_loop fs (files1 ++ files2) report
  = report_loop fs files1 report ≫= report_loop fs files2.
Proof.
  revert report. induction files1 as [|p files1 IH]; intros report; [done|].
  cbn [app report_loop]. destruct (negb (exists_ fs p)); [apply IH|].
  destruct (analyze_file fs p) as [ents|e]; [|done].
  cbn [mbind result_bind]. apply IH.
Qed.


(** A file that exists but cannot be analysed stops the loop. *)
Definition broken (fs : filesystem) (file_path : string) : Prop :=
  fs !! file_path = Some Unreadable
  \/ exists lines, fs !! file_path = Some (Readable lines None).

Lemma report_loop_raises fs files path :
  path ∈ files -> broken fs path ->
  forall report,
    exists e, report_loop fs files report = Raise e
      /\ ((forall p, p ∈ files -> fs !! p <> Some Unreadable) -> e = SyntaxError).
Proof.
  intros Hin Hbroken.
  induction files as [|p files IH]; intros report.
  - by apply elem_of_nil in Hin.
  - destruct (fs !! p) as [[|lines [tree|]]|] eqn:Hfs.
    + exists PermissionError. split; [by apply report_loop_unreadable|].
      intros Hno. exfalso. apply (Hno p); [left | done].
    + assert (path ∈ files) as Hin'.
      { apply elem_of_cons in Hin as [->|Hin]; [|done].
        destruct Hbroken as [H|[? H]]; congruence. }
      rewrite (report_loop_parsed _ _ _ _ _ _ Hfs).
      edestruct (IH Hin') as (e & He & Hsyn). exists e. split; [exact He|].
      intros Hno. apply Hsyn. intros q Hq. apply Hno. by right.
    + exists SyntaxError. split; [by eapply report_loop_syntax_error | done].
    + assert (path ∈ files) as Hin'.
      { apply elem_of_cons in Hin as [->|Hin]; [|done].
        destruct Hbroken as [H|[? H]]; congruence. }
      rewrite (report_loop_missing _ _ _ _ Hfs).
      destruct (IH Hin' report) as (e & He & Hsyn). exists e. split; [done|].
      intros Hno. apply Hsyn. intros q Hq. apply Hno. by right.
Qed.

(** Every entry of the per-file details belongs to a parsed file. *)
Definition details_of_parsed (fs : filesystem) (m : gmap string file_detail)
    : Prop :=
  forall p d, m !! p = Some d ->
    exists lines tree,
      fs !! p = Some (Readable lines (Some tree))
      /\ d = file_entry (tree_stats tree).

Lemma report_loop_details fs files :
  forall report report',
    details_of_parsed fs (p_details report) ->
    report_loop fs files report = Ok report' ->
    details_of_parsed fs (p_details report').
Proof.
  induction files as [|p files IH]; intros report report' Hinv Hrun.
  - cbn in Hrun. by simplify_eq.
  - destruct (fs !! p) as [[|lines [tree|]]|] eqn:Hfs.
    + by rewrite (report_loop_unreadable _ _ _ _ Hfs) in Hrun.
    + rewrite (report_loop_parsed _ _ _ _ _ _ Hfs) in Hrun.
      refine (IH _ _ _ Hrun). cbn [p_details].
      intros q d Hq. destruct (decide (q = p)) as [->|Hne].
      * rewrite lookup_insert_eq in Hq. simplify_eq. by exists lines, tree.
      * rewrite lookup_insert_ne in Hq by done. by apply Hinv.
    + by rewrite (report_loop_syntax_error _ _ _ _ _ Hfs) in Hrun.
    + rewrite (report_loop_missing _ _ _ _ Hfs) in Hrun. by eapply IH.
Qed.

End Coverage.

(** ** Claims on the coverage report *)

Module CoverageClaims.

Import Ast Extractor Declarations Coverage Samples.

(** A module with a docstring and nothing else: 1 of 1 documented. *)
Definition notes_lines : list string :=
  [line (PyStr.triple_quote +:+ "Notes." +:+ PyStr.triple_quote)].

Definition notes_tree : Module :=
  {| body := [Expr (Constant_str "Notes.")] |}.

(** Two files of different sizes: 1 of 1 and 0 of 4 documented. *)
Definition two_files : filesystem :=
  {[ "notes.py" := Readable notes_lines (Some notes_tree);
     "shapes.py" := Readable shapes_lines (Some shapes_tree) ]}.

(** A file with a syntax error next to a good one, and a file that exists
    but cannot be opened. *)
Definition with_broken : filesystem :=
  {[ "shapes.py" := Readable shapes_lines (Some shapes_tree);
     "broken.py" := Readable [line "def f(:"] None ]}.


(** A documented module followed by [n] undocumented functions, two lines
    each. *)
Definition undocumented_function (i : nat) : stmt :=
  FunctionDef "f" (positional []) [simple] (2 * i + 2) (2 * i + 3).

Definition many_functions_tree (n : nat) : Module :=
  {| body := Expr (Constant_str "Doc.")
             :: map undocumented_function (seq 0 n) |}.

Definition many_functions_lines (n : nat) : list string :=
  line (PyStr.triple_quote +:+ "Doc." +:+ PyStr.triple_quote)
  :: flat_map (fun _ => [line "def f():"; line "    pass"]) (seq 0 n).

Definition big_file : filesystem :=
  {[ "big.py" := Readable (many_functions_lines (20 * 1000 + 1))
                   (Some (many_functions_tree (20 * 1000 + 1))) ]}.

(** The per-file entry of a path in the report of a run, if there is one. *)
Definition details_of (fs : filesystem) (files : list string)
    (file_path : string) : option file_detail :=
  match generate_coverage_report fs files with
  | Ok r => details r !! file_path
  | Raise _ => None
  end.

(** C2: when every path that exists can be read and parsed, the report is
    produced; the per-file total is the number of declarations of the tree
    (module, classes, callables of the classes, module-level callables), the
    per-file coverage is [round(documented/total*100, 2)], or [0.0] when the
    total is 0; the overall figures are the sums of the per-file counts, and
    the overall coverage is the same ratio-and-round rule on those sums. *)
Theorem coverage_report_formula (fs : filesystem) (files : list string) :
  Forall (analysable fs) files ->
  exists r,
    generate_coverage_report fs files = Ok r
    /\ total_entities r = sum_list (map (fun p => total (file_counts fs p)) files)
    /\ documented_entities r
       = sum_list (map (fun p => documented (file_counts fs p)) files)
    /\ overall_coverage r
       = (if 0 <? total_entities r
          then Float.round2
                 (PrimFloat.mul
                    (Float.truediv (documented_entities r) (total_entities r))
                    (Float.of_Z 100))
          else 0%float)
    /\ forall p lines tree,
         p ∈ files -> fs !! p = Some (Readable lines (Some tree)) ->
         let docs := declaration_docstrings tree in
         file_counts fs p
         = {| total := length docs;
              documented := length (List.filter truthy docs) |}
         /\ length docs
            = 1 + length (flat_map class_sites (body tree))
              + sum_list
                  (map (fun site =>
                          length (flat_map callable_sites (cs_body site)))
                     (flat_map class_sites (body tree)))
              + length (flat_map callable_sites (body tree))
         /\ details r !! p
            = Some {| coverage :=
                        if 0 <? length docs
                        then Float.round2
                               (PrimFloat.mul
                                  (Float.truediv
                                     (length (List.filter truthy docs))
                                     (length docs))
                                  (Float.of_Z 100))
                        else 0%float;
                      stats := file_counts fs p |}.
Proof.
  intros Hall. rewrite generate_coverage_report_eq.
  rewrite (report_loop_ok fs files Hall). eexists. split; [reflexivity|].
  cbn [finish start total_entities documented_entities overall_coverage details
       p_total_entities p_documented_entities p_details p_files_analyzed].
  split; [done|]. split; [done|]. split; [done|].
  intros p lines tree Hin Hfs.
  split; [apply (file_counts_parsed _ _ _ _ Hfs)|].
  split; [apply (tree_stats_total tree)|].
  rewrite add_details_lookup; [|done|by unfold exists_; rewrite Hfs].
  rewrite (file_counts_parsed _ _ _ _ Hfs).
  unfold file_entry. by rewrite percentage_eq.
Qed.

Lemma coverage_report_formula_witness :
  exists r,
    generate_coverage_report two_files ["notes.py"; "gone.py"; "shapes.py"]
    = Ok r
    /\ total_entities r = 5 /\ documented_entities r = 1.
Proof.
  destruct (coverage_report_formula two_files
              ["notes.py"; "gone.py"; "shapes.py"]) as (r & Hr & Ht & Hd & _).
  - repeat (constructor; [vm_compute; exact I|]). constructor.
  - exists r. split; [exact Hr|]. split; [rewrite Ht | rewrite Hd]; vm_compute; reflexivity.
Defined.

(** The overall coverage of the two sample files is 1 of 5, that is 20.0;
    their per-file coverages are 100.0 and 0.0, whose mean is 50.0. *)
Lemma overall_is_not_mean_of_percentages :
  (fun r => (overall_coverage r,
             coverage <$> details r !! "notes.py",
             coverage <$> details r !! "shapes.py"))
    <$> generate_coverage_report two_files ["notes.py"; "shapes.py"]
  = Ok (20%float, Some 100%float, Some 0%float).
Proof. vm_compute. reflexivity. Qed.




(** C4, as stated, fails: with one good file and one file with a syntax
    error the batch produces no report at all. *)
Lemma syntax_error_aborts_batch :
  generate_coverage_report with_broken ["shapes.py"; "broken.py"]
  = Raise SyntaxError.
Proof. vm_compute. reflexivity. Qed.

(** C4, amended: a file with a syntax error raises [SyntaxError] when it is
    analysed on its own, and a coverage run over a list that contains it
    raises as well and produces no report; the exception is that
    [SyntaxError] unless an unreadable file is in the list too. *)
Theorem syntax_error_propagates (fs : filesystem) (files : list string)
    (file_path : string) (lines : list string) :
  file_path ∈ files ->
  fs !! file_path = Some (Readable lines None) ->
  analyze_file fs file_path = Raise SyntaxError
  /\ (exists e, generate_coverage_report fs files = Raise e)
  /\ ((forall p, p ∈ files -> fs !! p <> Some Unreadable) ->
      generate_coverage_report fs files = Raise SyntaxError).
Proof.
  intros Hin Hfs.
  split; [unfold analyze_file, parse_file; by rewrite Hfs|].
  rewrite generate_coverage_report_eq.
  destruct (report_loop_raises fs files file_path Hin
              (or_intror (ex_intro _ lines Hfs)) (start files))
    as (e & -> & Hsyn).
  split; [by exists e|]. intros Hno. by rewrite (Hsyn Hno).
Qed.

Lemma syntax_error_propagates_witness :
  analyze_file with_broken "broken.py" = Raise SyntaxError
  /\ (exists e,
        generate_coverage_report with_broken ["shapes.py"; "broken.py"]
        = Raise e).
Proof.
  destruct (syntax_error_propagates with_broken ["shapes.py"; "broken.py"]
              "broken.py" [line "def f(:"]) as (Hone & Hbatch & _).
  - apply list_elem_of_In. right. by left.
  - vm_compute. reflexivity.
  - split; [exact Hone | exact Hbatch].
Defined.

Lemma undocumented_functions_sites (l : list nat) :
  flat_map class_sites (map undocumented_function l) = []
  /\ map (fun s => get_docstring (s_body s))
       (flat_map callable_sites (map undocumented_function l))
     = repeat None (length l).
Proof.
  induction l as [|i l [IHc IHf]]; [done|].
  cbn [map flat_map class_sites callable_sites undocumented_function app
       length repeat s_body].
  split; [exact IHc | by rewrite IHf].
Qed.

Lemma filter_truthy_repeat_None (n : nat) :
  List.filter truthy (repeat None n) = [].
Proof. induction n as [|n IH]; [done | exact IH]. Qed.

Lemma many_functions_stats (n : nat) :
  tree_stats (many_functions_tree n) = {| total := n + 1; documented := 1 |}.
Proof.
  unfold tree_stats, declaration_docstrings, many_functions_tree.
  cbn [body flat_map class_sites callable_sites app].
  destruct (undocumented_functions_sites (seq 0 n)) as [-> ->].
  cbn [flat_map app]. rewrite length_seq.
  change (get_docstring (Expr (Constant_str "Doc.") :: _))
    with (Some (Inspect.cleandoc "Doc.")).
  cbn [length List.filter].
  replace (truthy (Some (Inspect.cleandoc "Doc."))) with true
    by (vm_compute; reflexivity).
  rewrite filter_truthy_repeat_None, repeat_length. cbn [length].
  f_equal. lia.
Qed.

Lemma tiny_ratio_rounds_to_zero : percentage 1 (20 * 1000 + 2) = 0%float.
Proof. vm_compute. reflexivity. Qed.

(** C10, as stated, fails in its last part: a file with one documented
    declaration out of 20002 has coverage [0.0]. *)
Lemma zero_coverage_with_documented_module :
  (fun r => (coverage <$> details r !! "big.py",
             stats <$> details r !! "big.py"))
    <$> generate_coverage_report big_file ["big.py"]
  = Ok (Some 0%float, Some {| total := 20 * 1000 + 2; documented := 1 |}).
Proof.
  rewrite generate_coverage_report_eq.
  rewrite (report_loop_parsed big_file "big.py"
             (many_functions_lines (20 * 1000 + 1))
             (many_functions_tree (20 * 1000 + 1)))
    by apply lookup_singleton_eq.
  cbn [report_loop fmap result_fmap finish details p_details].
  rewrite lookup_insert_eq, many_functions_stats.
  cbn [fmap option_fmap option_map file_entry coverage stats total documented].
  replace (20 * 1000 + 1 + 1) with (20 * 1000 + 2) by lia.
  by rewrite tiny_ratio_rounds_to_zero.
Qed.

(** C10, amended: every per-file entry of a report belongs to a file that
    parsed; its total is at least 1, because the module is always counted,
    so the [total = 0] branch is never taken and the coverage is always
    [round(documented/total*100, 2)]. *)
Theorem per_file_total_positive (fs : filesystem) (files : list string)
    (r : coverage_report) (file_path : string) (d : file_detail) :
  generate_coverage_report fs files = Ok r ->
  details r !! file_path = Some d ->
  (exists lines tree,
     fs !! file_path = Some (Readable lines (Some tree))
     /\ stats d = count_entities (extract tree))
  /\ 1 <= total (stats d)
  /\ documented (stats d) <= total (stats d)
  /\ (0 <? total (stats d)) = true
  /\ coverage d
     = Float.round2
         (PrimFloat.mul
            (Float.truediv (documented (stats d)) (total (stats d)))
            (Float.of_Z 100)).
Proof.
  rewrite generate_coverage_report_eq. intros Hrun Hd.
  destruct (report_loop fs files (start files)) as [report|e] eqn:Hloop;
    [|done].
  cbn in Hrun. simplify_eq. cbn [finish details] in Hd.
  assert (details_of_parsed fs (p_details report)) as Hinv.
  { apply (report_loop_details fs files (start files)); [|done].
    intros p d' Hp. cbn [start p_details] in Hp.
    by rewrite lookup_empty in Hp. }
  destruct (Hinv _ _ Hd) as (lines & tree & Hfs & ->).
  pose proof (tree_stats_total_pos tree) as Hpos.
  cbn [file_entry stats coverage].
  split; [exists lines, tree; by rewrite count_entities_extract|].
  split; [done|]. split; [apply tree_stats_documented_le|].
  assert ((0 <? total (tree_stats tree)) = true) as Hlt
    by (apply Nat.ltb_lt; lia).
  split; [done|]. by rewrite percentage_eq, Hlt.
Qed.

Lemma per_file_total_positive_witness :
  exists d, details_of two_files ["notes.py"; "shapes.py"] "shapes.py" = Some d
    /\ 1 <= total (stats d).
Proof.
  destruct (generate_coverage_report two_files ["notes.py"; "shapes.py"])
    as [r|e] eqn:Hr; [|by vm_compute in Hr].
  destruct (details r !! "shapes.py") as [d|] eqn:Hd.
  - exists d. split.
    + unfold details_of. by rewrite Hr.
    + apply (per_file_total_positive two_files ["notes.py"; "shapes.py"] r
               "shapes.py" d Hr Hd).
  - exfalso. vm_compute in Hr. injection Hr as <-. by vm_compute in Hd.
Defined.

End CoverageClaims.

(** ** The synthesized block, line by line *)

Module Synthesizer.

Import PyStr.

Definition no_newline (s : string) : Prop := contains newline s = false.

(** Lines, each followed by a line feed. *)
Fixpoint terminated (ls : list string) : string :=
  match ls with
  | [] => ""
  | l :: ls' => l +:+ nl +:+ terminated ls'
  end.

Lemma append_cons (x : ascii) (a b : string) :
  String x a +:+ b = String x (a +:+ b).
Proof. reflexivity. Qed.

Lemma append_assoc (a b c : string) : (a +:+ b) +:+ c = a +:+ (b +:+ c).
Proof. induction a as [|x a IH]; [done|]. by rewrite !append_cons, IH. Qed.

Lemma append_nil_r (a : string) : a +:+ "" = a.
Proof. induction a as [|x a IH]; [done|]. by rewrite append_cons, IH. Qed.

Lemma terminated_app (ls1 ls2 : list string) :
  terminated (ls1 ++ ls2) = terminated ls1 +:+ terminated ls2.
Proof.
  induction ls1 as [|l ls1 IH]; cbn [terminated app]; [done|].
  by rewrite IH, !append_assoc.
Qed.

Lemma contains_append (c : ascii) (a b : string) :
  contains c (a +:+ b) = contains c a || contains c b.
Proof.
  induction a as [|x a IH]; [done|].
  rewrite append_cons. cbn [contains]. by rewrite IH, orb_assoc.
Qed.

Lemma contains_map (c : ascii) (f : ascii -> ascii) (s : string) :
  (forall x, f x = c -> x = c) ->
  contains c s = false -> contains c (PyStr.map f s) = false.
Proof.
  intros Hf. induction s as [|x s IH]; simpl; [done|].
  intros [Hx Hs]%orb_false_elim. rewrite (IH Hs), orb_false_r.
  apply Ascii.eqb_neq. intros Heq. apply Hf in Heq.
  apply Ascii.eqb_neq in Hx. contradiction.
Qed.

Lemma upper_newline x : upper x = newline -> x = newline.
Proof. destruct x as [[] [] [] [] [] [] [] []]; vm_compute; congruence. Qed.

Lemma lower_newline x : lower x = newline -> x = newline.
Proof. destruct x as [[] [] [] [] [] [] [] []]; vm_compute; congruence. Qed.

Lemma no_newline_spaces n : no_newline (spaces n).
Proof. induction n as [|n IH]; [done | exact IH]. Qed.

Lemma no_newline_append a b :
  no_newline a -> no_newline b -> no_newline (a +:+ b).
Proof. unfold no_newline. intros Ha Hb. by rewrite contains_append, Ha, Hb. Qed.

Lemma no_newline_phrase name :
  no_newline name -> no_newline (capitalize (replace "_" " " name)).
Proof.
  unfold no_newline, replace. destruct name as [|c name]; [done|].
  cbn [PyStr.map capitalize contains]. intros [Hc Hs]%orb_false_elim.
  apply orb_false_intro.
  - apply Ascii.eqb_neq. intros Heq%upper_newline.
    apply Ascii.eqb_neq in Hc.
    destruct (Ascii.eqb c "_"); [discriminate | contradiction].
  - apply contains_map; [apply lower_newline|].
    apply contains_map; [|done].
    intros x. destruct (Ascii.eqb x "_"); [discriminate | done].
Qed.

Lemma split_lines_nonempty s : split_lines s <> [].
Proof.
  induction s as [|c s IH]; simpl; [done|].
  destruct (Ascii.eqb c newline); [done|]. by destruct (split_lines s).
Qed.

Lemma split_lines_no_newline s : no_newline s -> split_lines s = [s].
Proof.
  unfold no_newline. induction s as [|c s IH]; simpl; [done|].
  intros [Hc Hs]%orb_false_elim. by rewrite Hc, (IH Hs).
Qed.

Lemma split_lines_line (l rest : string) :
  no_newline l -> split_lines (l +:+ nl +:+ rest) = l :: split_lines rest.
Proof.
  unfold no_newline. induction l as [|c l IH].
  - done.
  - rewrite append_cons. cbn [contains split_lines].
    intros [Hc Hs]%orb_false_elim. by rewrite Hc, (IH Hs).
Qed.

Lemma split_lines_terminated (ls : list string) (last : string) :
  Forall no_newline ls -> no_newline last ->
  split_lines (terminated ls +:+ last) = ls ++ [last].
Proof.
  intros Hls Hlast. induction Hls as [|l ls Hl _ IH]; cbn [terminated app].
  - by apply split_lines_no_newline.
  - by rewrite !append_assoc, split_lines_line, IH.
Qed.

(** The lines of the block, the closing quotes apart. *)
Definition arg_line (prefix arg : string) : string :=
  prefix +:+ "    " +:+ arg +:+ ": Description of " +:+ arg +:+ ".".

Definition first_line (prefix name : string) : string :=
  prefix +:+ triple_quote +:+ capitalize (replace "_" " " name) +:+ ".".

Definition args_section (prefix : string) (args : option (list string))
    : list string :=
  if list_truthy args
  then (prefix +:+ "Args:") :: List.map (arg_line prefix) (default [] args)
  else [].

Definition returns_section (prefix : string) (is_class : bool) : list string :=
  if is_class then []
  else [""; prefix +:+ "Returns:";
        prefix +:+ "    Description of the return value."].

Definition block_lines (name : string) (args : option (list string))
    (is_class : bool) (indent : nat) : list string :=
  let prefix := spaces indent in
  [first_line prefix name; ""]
  ++ args_section prefix args
  ++ returns_section prefix is_class.

Lemma fold_left_arg_lines prefix args doc :
  fold_left
    (fun doc arg =>
       doc +:+ (prefix +:+ "    " +:+ arg +:+ ": Description of " +:+ arg
                  +:+ "." +:+ nl))
    args doc
  = doc +:+ terminated (List.map (arg_line prefix) args).
Proof.
  revert doc. induction args as [|a args IH]; intros doc;
    cbn [fold_left List.map terminated].
  - by rewrite append_nil_r.
  - rewrite IH. unfold arg_line. by rewrite !append_assoc.
Qed.

Lemma generate_google_docstring_lines name args is_class indent :
  generate_google_docstring name args is_class indent
  = terminated (block_lines name args is_class indent)
    +:+ (spaces indent +:+ triple_quote).
Proof.
  unfold generate_google_docstring, block_lines.
  rewrite !terminated_app. unfold args_section, returns_section, first_line.
  destruct (list_truthy args), is_class; cbn [negb];
    rewrite ?fold_left_arg_lines; cbn [terminated];
    by rewrite ?append_assoc, ?append_nil_r.
Qed.

End Synthesizer.

(** ** Claims on the synthesized block *)

Module SynthesizerClaims.

Import PyStr Synthesizer.

(** Specification wording: underscores replaced by spaces and the first
    letter capitalized, the other letters as they are in the name. *)
Definition spec_phrase (name : string) : string :=
  match replace "_" " " name with
  | EmptyString => EmptyString
  | String c rest => String (upper c) rest
  end.

(** C8, as stated, fails: the letters after the first are lower-cased, so
    [addNumbers] gives "Addnumbers."; a callable without parameters gets no
    Args section; and the block contains lines that are not indented. *)
Lemma block_departs_from_wording :
  hd "" (split_lines
           (generate_google_docstring "addNumbers" (Some ["a"; "b"]) false 4))
  <> spaces 4 +:+ triple_quote +:+ spec_phrase "addNumbers" +:+ "."
  /\ ~ In (spaces 4 +:+ "Args:")
        (split_lines (generate_google_docstring "run" (Some []) false 4))
  /\ In "" (split_lines (generate_google_docstring "run" (Some []) false 4)).
Proof.
  split; [vm_compute; discriminate|].
  split; [vm_compute; intuition discriminate | vm_compute; tauto].
Qed.

(** C8, amended: for a name made of ASCII characters, the name and the
    parameters being without line feeds, the block consists of: the opening
    quotes followed by the name with underscores replaced by spaces, its
    first character upper-cased and all others lower-cased, and a period; an empty line; if the parameter list is not
    empty (whatever [is_class] is), an [Args:] line and one line
    [<param>: Description of <param>.] per parameter, four columns further
    in; unless [is_class], an empty line, a [Returns:] line and a
    placeholder line four columns further in; the closing quotes.  Every
    line is empty or starts with [indent] spaces. *)
Theorem generate_google_docstring_block (name : string)
    (args : option (list string)) (is_class : bool) (indent : nat) :
  isascii name = true ->
  no_newline name ->
  Forall no_newline (default [] args) ->
  let prefix := spaces indent in
  let lines := split_lines (generate_google_docstring name args is_class indent) in
  lines
  = [prefix +:+ triple_quote +:+ capitalize (replace "_" " " name) +:+ "."; ""]
    ++ (if list_truthy args
        then (prefix +:+ "Args:")
             :: List.map
                  (fun arg => prefix +:+ "    " +:+ arg +:+ ": Description of "
                                +:+ arg +:+ ".")
                  (default [] args)
        else [])
    ++ (if is_class then []
        else [""; prefix +:+ "Returns:";
              prefix +:+ "    Description of the return value."])
    ++ [prefix +:+ triple_quote]
  /\ Forall (fun l => l = "" \/ exists rest, l = prefix +:+ rest) lines.
Proof.
  intros _ Hname Hargs prefix lines.
  assert (Forall (fun l => no_newline l
                           /\ (l = "" \/ exists rest, l = prefix +:+ rest))
            (block_lines name args is_class indent)) as Hblock.
  { assert (forall rest, no_newline rest ->
              no_newline (prefix +:+ rest)
              /\ (prefix +:+ rest = "" \/ exists r, prefix +:+ rest = prefix +:+ r))
      as Hline.
    { intros rest Hrest. split; [|right; by eexists].
      apply no_newline_append; [apply no_newline_spaces | done]. }
    unfold block_lines. fold prefix.
    repeat apply Forall_app_2.
    - apply Forall_cons_2; [|apply Forall_cons_2; [by split; [|left] | constructor]].
      apply Hline. repeat apply no_newline_append; try done.
      by apply no_newline_phrase.
    - unfold args_section. destruct (list_truthy args); [|constructor].
      apply Forall_cons_2; [by apply Hline|].
      apply Forall_forall. intros l Hl%list_elem_of_In%in_map_iff.
      destruct Hl as (arg & <- & Harg%list_elem_of_In).
      pose proof (proj1 (Forall_forall _ _) Hargs arg Harg) as Hnl.
      apply Hline. by repeat apply no_newline_append.
    - unfold returns_section. destruct is_class; [constructor|].
      apply Forall_cons_2; [by split; [|left]|].
      apply Forall_cons_2; [by apply Hline|].
      apply Forall_cons_2; [by apply Hline | constructor]. }
  assert (lines = block_lines name args is_class indent
                  ++ [prefix +:+ triple_quote]) as Hlines.
  { unfold lines. rewrite generate_google_docstring_lines.
    apply split_lines_terminated.
    - eapply Forall_impl; [exact Hblock | by intros l [Hl _]].
    - apply no_newline_append; [apply no_newline_spaces | done]. }
  split.
  - rewrite Hlines. unfold block_lines, args_section, returns_section,
      first_line, arg_line. fold prefix. by rewrite <- !app_assoc.
  - rewrite Hlines. apply Forall_app_2.
    + eapply Forall_impl; [exact Hblock | by intros l [_ Hl]].
    + apply Forall_cons_2; [|constructor]. right. by eexists.
Qed.

Lemma generate_google_docstring_block_witness :
  split_lines (generate_google_docstring "add_numbers" (Some ["a"; "b"]) false 4)
  = [spaces 4 +:+ triple_quote +:+ "Add numbers."; "";
     spaces 4 +:+ "Args:";
     spaces 8 +:+ "a: Description of a.";
     spaces 8 +:+ "b: Description of b.";
     "";
     spaces 4 +:+ "Returns:";
     spaces 8 +:+ "Description of the return value.";
     spaces 4 +:+ triple_quote].
Proof.
  refine (proj1 (generate_google_docstring_block "add_numbers"
                   (Some ["a"; "b"]) false 4 _ _ _)).
  - reflexivity.
  - reflexivity.
  - repeat constructor.
Defined.

End SynthesizerClaims.

(** ** Where the inserted blocks land

    The loop inserts back to front into a list that it changes as it goes.
    Its result is compared with one forward pass over the original lines
    that emits, after each line, the blocks whose header ends there. *)

Module Splice.

Import Inserter.

(** The list element that an insertion adds. *)
Definition block (p : pending) : string := p.2 +:+ PyStr.nl.

Definition at_top (p : pending) : bool := p.1 =? 0.

(** [p] belongs to a declaration whose header ends at index [i] of [lines]. *)
Definition lands_after (lines : list string) (i : nat) (p : pending) : bool :=
  negb (p.1 =? 0) && (header_end lines p.1 =? i).

(** The blocks put before the first line, and the blocks put after line [i];
    of two insertions at the same place the later one comes first. *)
Definition top_blocks (applied : list pending) : list string :=
  map block (rev (List.filter at_top applied)).

Definition blocks_at (lines : list string) (applied : list pending) (i : nat)
    : list string :=
  map block (rev (List.filter (lands_after lines i) applied)).

(** The forward pass: every line from index [i] on, followed by its blocks. *)
Fixpoint weave (rest : list string) (i : nat) (blocks : nat -> list string)
    : list string :=
  match rest with
  | [] => []
  | l :: rest' => l :: blocks i ++ weave rest' (S i) blocks
  end.

(** *** The scan for the end of a header *)

Lemma scan_ge rest start : start <= scan rest start.
Proof.
  revert start. induction rest as [|l rest IH]; intros start; simpl; [lia|].
  destruct (has_colon l); [lia|]. specialize (IH (S start)). lia.
Qed.

Lemma scan_colon rest start :
  scan rest start < start + length rest ->
  exists l, rest !! (scan rest start - start) = Some l /\ has_colon l = true.
Proof.
  revert start. induction rest as [|l rest IH]; intros start; simpl; [lia|].
  destruct (has_colon l) eqn:Hl.
  - intros _. exists l. by rewrite Nat.sub_diag.
  - intros Hlt. destruct (IH (S start)) as (l' & Hl' & Hc); [lia|].
    exists l'. split; [|done].
    pose proof (scan_ge rest (S start)).
    replace (scan rest (S start) - start)
      with (S (scan rest (S start) - S start)) by lia.
    exact Hl'.
Qed.

Lemma scan_before rest start k l :
  start + k < scan rest start -> rest !! k = Some l -> has_colon l = false.
Proof.
  revert start k. induction rest as [|x rest IH]; intros start k; [done|].
  simpl. destruct (has_colon x) eqn:Hx; [lia|].
  destruct k as [|k]; simpl.
  - intros _ ?. by simplify_eq.
  - intros Hlt. apply (IH (S start)). lia.
Qed.

Lemma scan_least rest start k l :
  rest !! k = Some l -> has_colon l = true -> scan rest start <= start + k.
Proof.
  revert start k. induction rest as [|x rest IH]; intros start k; [done|].
  simpl. destruct (has_colon x) eqn:Hx; [lia|].
  destruct k as [|k]; simpl.
  - intros [= ->] Hc. congruence.
  - intros Hk Hl. specialize (IH (S start) k Hk Hl). lia.
Qed.

Lemma scan_prefix rest start extra :
  scan rest start < start + length rest ->
  scan (take (S (scan rest start - start)) rest ++ extra) start
  = scan rest start.
Proof.
  revert start. induction rest as [|l rest IH]; intros start;
    cbn [scan length]; [lia|].
  destruct (has_colon l) eqn:Hl.
  - intros _. rewrite Nat.sub_diag. cbn [take app scan]. by rewrite Hl.
  - intros Hlt. pose proof (scan_ge rest (S start)).
    replace (scan rest (S start) - start)
      with (S (scan rest (S start) - S start)) by lia.
    cbn [take app scan]. rewrite Hl. apply IH. lia.
Qed.

Lemma header_end_ge lines line_idx : line_idx - 1 <= header_end lines line_idx.
Proof. apply scan_ge. Qed.

Lemma header_end_colon lines line_idx :
  header_end lines line_idx < length lines ->
  exists l, lines !! header_end lines line_idx = Some l /\ has_colon l = true.
Proof.
  intros Hlt. pose proof (header_end_ge lines line_idx) as Hge.
  unfold header_end in *.
  destruct (scan_colon (drop (line_idx - 1) lines) (line_idx - 1))
    as (l & Hl & Hc).
  - rewrite length_drop. lia.
  - exists l. split; [|done]. rewrite lookup_drop in Hl.
    by replace (line_idx - 1 + (scan (drop (line_idx - 1) lines) (line_idx - 1)
                                - (line_idx - 1)))
      with (scan (drop (line_idx - 1) lines) (line_idx - 1)) in Hl by lia.
Qed.

Lemma header_end_before lines line_idx i l :
  line_idx - 1 <= i < header_end lines line_idx ->
  lines !! i = Some l -> has_colon l = false.
Proof.
  intros [Hge Hlt] Hl. unfold header_end in Hlt.
  apply (scan_before (drop (line_idx - 1) lines) (line_idx - 1)
           (i - (line_idx - 1))).
  - lia.
  - rewrite lookup_drop. by replace (line_idx - 1 + (i - (line_idx - 1))) with i by lia.
Qed.

Lemma header_end_least lines line_idx i l :
  line_idx - 1 <= i -> lines !! i = Some l -> has_colon l = true ->
  header_end lines line_idx <= i.
Proof.
  intros Hge Hl Hc. unfold header_end.
  pose proof (scan_least (drop (line_idx - 1) lines) (line_idx - 1)
                (i - (line_idx - 1)) l) as Hleast.
  rewrite lookup_drop in Hleast.
  replace (line_idx - 1 + (i - (line_idx - 1))) with i in Hleast by lia.
  specialize (Hleast Hl Hc). lia.
Qed.

(** A later declaration's header does not end before an earlier one's. *)
Lemma header_end_mono lines line_idx line_idx' :
  line_idx <= line_idx' ->
  header_end lines line_idx' < length lines ->
  header_end lines line_idx <= header_end lines line_idx'.
Proof.
  intros Hle Hlt. destruct (header_end_colon _ _ Hlt) as (l & Hl & Hc).
  pose proof (header_end_ge lines line_idx').
  eapply header_end_least; [|exact Hl|exact Hc]. lia.
Qed.

(** What follows the end of the header does not matter to the scan. *)
Lemma header_end_prefix lines line_idx extra :
  header_end lines line_idx < length lines ->
  header_end (take (S (header_end lines line_idx)) lines ++ extra) line_idx
  = header_end lines line_idx.
Proof.
  intros Hlt. pose proof (header_end_ge lines line_idx) as Hge.
  unfold header_end in *.
  set (start := line_idx - 1) in *.
  set (rest := drop start lines) in *.
  rewrite drop_app_le by (rewrite length_take; lia).
  replace (drop start (take (S (scan rest start)) lines))
    with (take (S (scan rest start - start)) rest).
  - apply scan_prefix. subst rest. rewrite length_drop. lia.
  - subst rest. rewrite take_drop_commute. f_equal. f_equal. lia.
Qed.

(** *** The forward pass *)

Lemma weave_ext rest i blocks1 blocks2 :
  (forall j, i <= j -> blocks1 j = blocks2 j) ->
  weave rest i blocks1 = weave rest i blocks2.
Proof.
  revert i. induction rest as [|l rest IH]; intros i Hext; simpl; [done|].
  rewrite (Hext i) by lia. do 2 f_equal. apply IH. intros j Hj. apply Hext. lia.
Qed.

(** Up to a line before which nothing is inserted, the pass copies. *)
Lemma weave_split rest i blocks k :
  k < length rest ->
  (forall j, i <= j < i + k -> blocks j = []) ->
  weave rest i blocks
  = take (S k) rest ++ blocks (i + k)
    ++ weave (drop (S k) rest) (i + S k) blocks.
Proof.
  revert rest i. induction k as [|k IH]; intros [|l rest] i Hk Hnone;
    simpl in Hk; try lia.
  - cbn [weave take drop app]. by rewrite Nat.add_0_r, Nat.add_1_r.
  - cbn [weave take drop app]. rewrite (Hnone i) by lia. cbn [app].
    f_equal. rewrite (IH rest (S i)).
    + by replace (S i + k) with (i + S k) by lia;
        replace (S i + S k) with (i + S (S k)) by lia.
    + lia.
    + intros j Hj. apply Hnone. lia.
Qed.

(** *** The sort *)

Definition descending (p q : pending) : Prop := q.1 <= p.1.

Lemma elem_of_insert_desc (q p : pending) sorted :
  q ∈ insert_desc p sorted <-> q = p \/ q ∈ sorted.
Proof.
  induction sorted as [|x sorted IH]; simpl.
  - rewrite list_elem_of_singleton, elem_of_nil. tauto.
  - destruct (x.1 <=? p.1); [by rewrite !elem_of_cons|].
    rewrite !elem_of_cons, IH. tauto.
Qed.

Lemma elem_of_sort_desc (q : pending) to_add :
  q ∈ sort_desc to_add <-> q ∈ to_add.
Proof.
  induction to_add as [|p to_add IH]; simpl; [done|].
  rewrite elem_of_insert_desc, elem_of_cons, IH. tauto.
Qed.

Lemma insert_desc_sorted p sorted :
  StronglySorted descending sorted ->
  StronglySorted descending (insert_desc p sorted).
Proof.
  induction 1 as [|x sorted Hsorted IH Hx]; simpl.
  - repeat constructor.
  - destruct (x.1 <=? p.1) eqn:Hle.
    + apply Nat.leb_le in Hle. constructor; [by constructor|].
      constructor; [exact Hle|].
      eapply Forall_impl; [exact Hx|]. unfold descending. intros; lia.
    + apply Nat.leb_gt in Hle. constructor; [exact IH|].
      apply Forall_forall. intros q Hq%elem_of_insert_desc.
      destruct Hq as [->|Hq]; [unfold descending; lia|].
      by apply (proj1 (Forall_forall _ _) Hx).
Qed.

Lemma sort_desc_sorted to_add : StronglySorted descending (sort_desc to_add).
Proof.
  induction to_add as [|p to_add IH]; simpl; [constructor|].
  by apply insert_desc_sorted.
Qed.

(** The sort keeps the insertions for line 0 in the order of [to_add]. *)
Lemma filter_at_top_insert_desc p sorted :
  List.filter at_top (insert_desc p sorted)
  = List.filter at_top [p] ++ List.filter at_top sorted.
Proof.
  induction sorted as [|x sorted IH]; [by rewrite app_nil_r|].
  cbn [insert_desc]. destruct (x.1 <=? p.1) eqn:Hle.
  { cbn [List.filter]. by destruct (at_top p). }
  apply Nat.leb_gt in Hle. cbn [List.filter].
  replace (at_top x) with false by (symmetry; apply Nat.eqb_neq; lia).
  exact IH.
Qed.

Lemma filter_at_top_sort_desc to_add :
  List.filter at_top (sort_desc to_add) = List.filter at_top to_add.
Proof.
  induction to_add as [|p to_add IH]; [done|].
  cbn [sort_desc]. rewrite filter_at_top_insert_desc, IH.
  cbn [List.filter]. by destruct (at_top p).
Qed.

(** *** The loop against the forward pass *)

Lemma weave_nil rest i blocks :
  (forall j, blocks j = []) -> weave rest i blocks = rest.
Proof.
  intros Hnil. revert i. induction rest as [|l rest IH]; intros i; simpl; [done|].
  by rewrite Hnil, IH.
Qed.

Lemma top_blocks_snoc ps p :
  top_blocks (ps ++ [p])
  = (if at_top p then [block p] else []) ++ top_blocks ps.
Proof.
  unfold top_blocks. rewrite List.filter_app, rev_app_distr, map_app.
  cbn [List.filter]. by destruct (at_top p).
Qed.

Lemma blocks_at_snoc lines ps p i :
  blocks_at lines (ps ++ [p]) i
  = (if lands_after lines i p then [block p] else []) ++ blocks_at lines ps i.
Proof.
  unfold blocks_at. rewrite List.filter_app, rev_app_distr, map_app.
  cbn [List.filter]. by destruct (lands_after lines i p).
Qed.

Lemma top_blocks_none ps :
  (forall q, q ∈ ps -> q.1 <> 0) -> top_blocks ps = [].
Proof.
  intros Hps. unfold top_blocks.
  replace (List.filter at_top ps) with (@nil pending); [done|].
  symmetry. induction ps as [|q ps IH]; [done|]. cbn [List.filter].
  replace (at_top q) with false
    by (symmetry; apply Nat.eqb_neq, Hps; left).
  apply IH. intros q' Hq'. apply Hps. by right.
Qed.

Lemma blocks_at_none lines ps i :
  (forall q, q ∈ ps -> q.1 <> 0 -> header_end lines q.1 <> i) ->
  blocks_at lines ps i = [].
Proof.
  intros Hps. unfold blocks_at.
  replace (List.filter (lands_after lines i) ps) with (@nil pending); [done|].
  symmetry. induction ps as [|q ps IH]; [done|]. cbn [List.filter].
  replace (lands_after lines i q) with false.
  - apply IH. intros q' Hq'. apply Hps. by right.
  - symmetry. unfold lands_after.
    destruct (q.1 =? 0) eqn:Hq; [done|]. apply Nat.eqb_neq in Hq.
    cbn [negb andb]. apply Nat.eqb_neq, Hps; [left | done].
Qed.

Lemma list_insert_at_app {A : Type} (l1 l2 : list A) (x : A) :
  list_insert_at (length l1) x (l1 ++ l2) = l1 ++ x :: l2.
Proof. unfold list_insert_at. by rewrite take_app_length, drop_app_length. Qed.

Lemma fold_insert_weave lines applied :
  StronglySorted descending applied ->
  (forall p, p ∈ applied -> p.1 <> 0 -> header_end lines p.1 < length lines) ->
  fold_left insert_doc applied lines
  = top_blocks applied ++ weave lines 0 (blocks_at lines applied).
Proof.
  induction applied as [|p ps IH] using rev_ind; intros Hsorted Hfound.
  - cbn [fold_left]. by rewrite weave_nil.
  - rewrite fold_left_app. cbn [fold_left].
    apply StronglySorted_app in Hsorted as (Hle & Hps & _).
    assert (forall q, q ∈ ps -> p.1 <= q.1) as Hmin.
    { intros q Hq. apply (Hle q p Hq). by left. }
    rewrite IH by (try done; intros q Hq; apply Hfound, elem_of_app; by left).
    rewrite top_blocks_snoc.
    destruct p as [line_idx doc_str]. unfold insert_doc, at_top. cbn [fst] in *.
    destruct (line_idx =? 0) eqn:Hzero.
    + apply Nat.eqb_eq in Hzero as ->.
      unfold list_insert_at. rewrite take_0, drop_0. cbn [app].
      change (block (0, doc_str)) with (doc_str +:+ PyStr.nl).
      do 2 f_equal. apply weave_ext. intros j _.
      by rewrite blocks_at_snoc.
    + apply Nat.eqb_neq in Hzero.
      rewrite (top_blocks_none ps)
        by (intros q Hq; specialize (Hmin q Hq); lia).
      cbn [app].
      assert (header_end lines line_idx < length lines) as Hc.
      { apply (Hfound (line_idx, doc_str)); [|done].
        apply elem_of_app. right. by left. }
      set (c := header_end lines line_idx) in *.
      assert (forall q, q ∈ ps -> q.1 <> 0 /\ c <= header_end lines q.1)
        as Hlater.
      { intros q Hq. specialize (Hmin q Hq). split; [lia|].
        apply header_end_mono; [done|].
        apply Hfound; [apply elem_of_app; by left | lia]. }
      assert (forall j, 0 <= j < 0 + c -> blocks_at lines ps j = [])
        as Hnone.
      { intros j Hj. apply blocks_at_none. intros q Hq _.
        destruct (Hlater q Hq). lia. }
      rewrite (weave_split lines 0 (blocks_at lines ps) c Hc Hnone).
      rewrite (weave_split lines 0
                 (blocks_at lines (ps ++ [(line_idx, doc_str)])) c Hc).
      2:{ intros j Hj. rewrite blocks_at_snoc, (Hnone j Hj), app_nil_r.
          unfold lands_after. cbn [fst]. fold c.
          replace (c =? j) with false by (symmetry; apply Nat.eqb_neq; lia).
          by rewrite andb_false_r. }
      cbn [Nat.add].
      pose proof (header_end_prefix lines line_idx) as Hprefix.
      fold c in Hprefix. rewrite Hprefix by done.
      replace (c + 1) with (length (take (S c) lines))
        by (rewrite length_take; lia).
      rewrite list_insert_at_app. f_equal.
      rewrite blocks_at_snoc. unfold lands_after. cbn [fst]. fold c.
      rewrite Nat.eqb_refl.
      replace (line_idx =? 0) with false by (symmetry; by apply Nat.eqb_neq).
      cbn [negb andb app]. unfold block at 1. cbn [snd].
      apply (f_equal (cons _)), (f_equal (app _)).
      apply weave_ext. intros j Hj.
      rewrite blocks_at_snoc. unfold lands_after. cbn [fst]. fold c.
      replace (c =? j) with false by (symmetry; apply Nat.eqb_neq; lia).
      by rewrite andb_false_r.
Qed.

(** The whole loop, sort included. *)
Lemma apply_insertions_weave lines to_add :
  (forall p, p ∈ to_add -> p.1 <> 0 -> header_end lines p.1 < length lines) ->
  apply_insertions to_add lines
  = top_blocks (sort_desc to_add)
    ++ weave lines 0 (blocks_at lines (sort_desc to_add)).
Proof.
  intros Hfound. apply fold_insert_weave; [apply sort_desc_sorted|].
  intros p Hp. apply Hfound. by apply elem_of_sort_desc.
Qed.

End Splice.

(** ** Claims on the insertion *)

Module InserterClaims.

Import Ast Extractor Inserter Splice Samples.

(** A method whose header is wrapped over three lines, the colon being on
    the third, followed by a one-line function. *)
Definition wrapped_lines : list string :=
  [line "class A:";
   line "    def f(self,";
   line "          x,";
   line "          y):";
   line "        pass";
   line "def g(): pass"].

Definition wrapped_tree : Module :=
  {| body := [ClassDef "A"
                [FunctionDef "f" (positional ["self"; "x"; "y"]) [simple] 2 5]
                1 5;
              FunctionDef "g" (positional []) [simple] 6 6] |}.

Definition wrapped_fs : filesystem :=
  {[ "pkg/wrapped.py" := Readable wrapped_lines (Some wrapped_tree) ]}.

Definition wrapped_to_add : list pending :=
  match collect "pkg/wrapped.py" (extract wrapped_tree) wrapped_lines with
  | Ok to_add => to_add
  | Raise _ => []
  end.

(** A function whose header is wrapped over two lines and has annotated
    parameters, so that its first line already contains a colon. *)
Definition annotated_lines : list string :=
  [line "def add(a: int,";
   line "        b: int) -> int:";
   line "    return a + b"].

Definition annotated_tree : Module :=
  {| body := [FunctionDef "add" (positional ["a"; "b"]) [simple] 1 3] |}.

Definition annotated_fs : filesystem :=
  {[ "calc.py" := Readable annotated_lines (Some annotated_tree) ]}.

Lemma collect_module_last file_path ents lines to_add :
  collect file_path ents lines = Ok to_add ->
  truthy (m_docstring (module ents)) = false ->
  exists others, to_add = others ++ [(0, module_docstring file_path)].
Proof.
  unfold collect. intros Hcollect Hdoc.
  destruct (for_each (add_callable lines) (functions ents) []) as [l1|];
    [|done].
  cbn [mbind result_bind] in Hcollect.
  destruct (for_each (add_class lines) (classes ents) l1) as [l2|]; [|done].
  cbn [mbind result_bind] in Hcollect. injection Hcollect as <-.
  exists l2. unfold add_module. by rewrite Hdoc.
Qed.

Lemma third_line_ends_header lines line_idx l1 l2 l3 :
  1 <= line_idx ->
  lines !! (line_idx - 1) = Some l1 -> has_colon l1 = false ->
  lines !! line_idx = Some l2 -> has_colon l2 = false ->
  lines !! S line_idx = Some l3 -> has_colon l3 = true ->
  header_end lines line_idx = S line_idx.
Proof.
  intros Hpos H1 Hc1 H2 Hc2 H3 Hc3.
  pose proof (header_end_ge lines line_idx) as Hge.
  pose proof (header_end_least lines line_idx (S line_idx) l3
                ltac:(lia) H3 Hc3) as Hle.
  pose proof (lookup_lt_Some _ _ _ H3) as Hlen.
  destruct (header_end_colon lines line_idx ltac:(lia)) as (l & Hl & Hc).
  destruct (decide (header_end lines line_idx = line_idx - 1)) as [Heq|Hne1];
    [rewrite Heq in Hl; congruence|].
  destruct (decide (header_end lines line_idx = line_idx)) as [Heq|Hne2];
    [rewrite Heq in Hl; congruence|].
  lia.
Qed.

(** The rewrite in closed form.  Let every undocumented class or callable
    have a line with a colon at or after its header line.  Then the
    rewritten file is the original
    lines in order, each followed by the blocks of the declarations whose
    scan from the header line stops at it, the stop being the first line at
    or after the header line that contains a colon; a header wrapped over
    three lines with the first colon on the third gets its block after the
    third.  The block of an undocumented module is the first line of the
    result. *)
Theorem insertion_after_header_end (fs : filesystem) (file_path : string)
    (lines : list string) (tree : Module) (to_add : list pending) :
  fs !! file_path = Some (Readable lines (Some tree)) ->
  collect file_path (extract tree) lines = Ok to_add ->
  (forall p, p ∈ to_add -> p.1 <> 0 -> header_end lines p.1 < length lines) ->
  let applied := sort_desc to_add in
  apply_missing_docstrings fs file_path
  = Ok (top_blocks applied ++ weave lines 0 (blocks_at lines applied))
  /\ (forall p, p ∈ to_add -> p.1 <> 0 ->
        let c := header_end lines p.1 in
        p.1 - 1 <= c
        /\ (exists l, lines !! c = Some l /\ has_colon l = true)
        /\ (forall i l, p.1 - 1 <= i < c -> lines !! i = Some l ->
              has_colon l = false))
  /\ (forall line_idx l1 l2 l3,
        1 <= line_idx ->
        lines !! (line_idx - 1) = Some l1 -> has_colon l1 = false ->
        lines !! line_idx = Some l2 -> has_colon l2 = false ->
        lines !! S line_idx = Some l3 -> has_colon l3 = true ->
        header_end lines line_idx = S line_idx)
  /\ (truthy (m_docstring (module (extract tree))) = false ->
        exists rest,
          top_blocks applied = (module_docstring file_path +:+ PyStr.nl) :: rest).
Proof.
  intros Hfile Hcollect Hfound applied.
  split; [|split; [|split]].
  - unfold apply_missing_docstrings, analyze_file, parse_file, readlines.
    rewrite Hfile. cbn [mbind result_bind]. rewrite Hcollect.
    cbn [mbind result_bind]. f_equal. by apply apply_insertions_weave.
  - intros p Hp Hnz c. split; [apply header_end_ge|].
    split; [by apply header_end_colon, Hfound|].
    intros i l. apply header_end_before.
  - apply third_line_ends_header.
  - intros Hdoc.
    destruct (collect_module_last _ _ _ _ Hcollect Hdoc) as (others & ->).
    unfold applied, top_blocks. rewrite filter_at_top_sort_desc.
    rewrite List.filter_app, rev_app_distr. cbn [List.filter at_top fst Nat.eqb
      rev app map]. by eexists.
Qed.

Lemma insertion_after_header_end_witness :
  apply_missing_docstrings wrapped_fs "pkg/wrapped.py"
  = Ok (top_blocks (sort_desc wrapped_to_add)
        ++ weave wrapped_lines 0
             (blocks_at wrapped_lines (sort_desc wrapped_to_add))).
Proof.
  refine (proj1 (insertion_after_header_end wrapped_fs "pkg/wrapped.py"
                   wrapped_lines wrapped_tree wrapped_to_add _ _ _)).
  - reflexivity.
  - vm_compute. reflexivity.
  - intros p Hp _. vm_compute in Hp.
    repeat (apply elem_of_cons in Hp as [->|Hp]; [vm_compute; lia|]).
    by apply elem_of_nil in Hp.
Defined.

(** The rewritten sample: the block of [f] follows the third line of its
    header, the block of [A] follows [class A:], the module block is first,
    and the block of the one-line [g] follows its only line. *)
Lemma wrapped_header_output :
  apply_missing_docstrings wrapped_fs "pkg/wrapped.py"
  = Ok [module_docstring "pkg/wrapped.py" +:+ PyStr.nl;
        line "class A:";
        generate_google_docstring "A" None true 4 +:+ PyStr.nl;
        line "    def f(self,";
        line "          x,";
        line "          y):";
        generate_google_docstring "f" (Some ["x"; "y"]) false 8 +:+ PyStr.nl;
        line "        pass";
        line "def g(): pass";
        generate_google_docstring "g" (Some []) false 4 +:+ PyStr.nl].
Proof. vm_compute. reflexivity. Qed.

(** C1 at a failing input: for a wrapped header whose first line has an
    annotated parameter, the block is put after that first line, inside the
    parameter list, and the closing line of the header follows the block. *)
Theorem annotated_wrapped_header_is_split :
  apply_missing_docstrings annotated_fs "calc.py"
  = Ok [module_docstring "calc.py" +:+ PyStr.nl;
        line "def add(a: int,";
        generate_google_docstring "add" (Some ["a"; "b"]) false 4 +:+ PyStr.nl;
        line "        b: int) -> int:";
        line "    return a + b"].
Proof. vm_compute. reflexivity. Qed.

(** A function whose header is wrapped over three lines, every parameter
    annotated: each of the three lines contains a colon, and the colon that
    ends the header is on the third. *)
Definition volume_lines : list string :=
  [line "def volume(w: int,";
   line "           h: int,";
   line "           d: int) -> int:";
   line "    return w * h * d"].

Definition volume_tree : Module :=
  {| body := [FunctionDef "volume" (positional ["w"; "h"; "d"]) [simple] 1 4] |}.

Definition volume_fs : filesystem :=
  {[ "box.py" := Readable volume_lines (Some volume_tree) ]}.

(** C7 at a failing input: for a header wrapped over three lines, ended by
    the colon on the third, whose first line has an annotated parameter,
    the scan stops at the first line (index 0, not 2) and the block is
    inserted after the first line, before the second and third lines of the
    header. *)
Theorem three_line_annotated_header_is_split :
  header_end volume_lines 1 = 0
  /\ apply_missing_docstrings volume_fs "box.py"
     = Ok [module_docstring "box.py" +:+ PyStr.nl;
           line "def volume(w: int,";
           generate_google_docstring "volume" (Some ["w"; "h"; "d"]) false 4
             +:+ PyStr.nl;
           line "           h: int,";
           line "           d: int) -> int:";
           line "    return w * h * d"].
Proof. split; vm_compute; reflexivity. Qed.

End InserterClaims.

(** * Further code: complexity listing and the coverage panel *)

(** ** [get_function_complexity]

    [radon.complexity.cc_visit] is outside the program: it is a parameter
    that maps the text of a file to its blocks, each with a name and a
    complexity, or raises. *)

Module Complexity.

Record cc_block : Type := { b_name : string; b_complexity : nat }.

Record complexity_row : Type := {
  r_name : string;
  r_complexity : nat;
  r_line : nat;
  r_has_docstring : bool
}.

(** [{b.name: b.complexity for b in cc_blocks}]: a later block replaces an
    earlier one of the same name. *)
Definition complexity_map (cc_blocks : list cc_block) : gmap string nat :=
  fold_left (fun m b => <[b_name b := b_complexity b]> m) cc_blocks ∅.

(** The dictionary appended for one callable; [complexity_map.get(name, 1)]. *)
Definition complexity_row_of (m : gmap string nat) (f : func_info)
    : complexity_row :=
  {| r_name := f_name f;
     r_complexity := default 1 (m !! f_name f);
     r_line := f_line f;
     r_has_docstring := truthy (f_docstring f) |}.

(** [result.sort(key=lambda x: x["line"])]: ascending by line, rows with the
    same line keeping their order. *)
Fixpoint insert_by_line (r : complexity_row) (sorted : list complexity_row)
    : list complexity_row :=
  match sorted with
  | [] => [r]
  | q :: sorted' =>
      if r_line r <=? r_line q then r :: q :: sorted'
      else q :: insert_by_line r sorted'
  end.

Fixpoint sort_by_line (rows : list complexity_row) : list complexity_row :=
  match rows with
  | [] => []
  | r :: rows' => insert_by_line r (sort_by_line rows')
  end.

(** The two loops that fill [result], before the sort. *)
Definition complexity_rows (m : gmap string nat) (ents : Entities)
    : list complexity_row :=
  let result :=
    fold_left (fun result f => result ++ [complexity_row_of m f])
      (functions ents) [] in
  fold_left
    (fun result cls =>
       fold_left (fun result f => result ++ [complexity_row_of m f])
         (c_methods cls) result)
    (classes ents) result.

Section get_function_complexity.

Variable cc_visit : list string -> result (list cc_block).

Definition get_function_complexity (fs : filesystem) (file_path : string)
    : result (list complexity_row) :=
  source ← readlines fs file_path;
  cc_blocks ← cc_visit source;
  let complexity_map := complexity_map cc_blocks in
  ents ← analyze_file fs file_path;
  Ok (sort_by_line (complexity_rows complexity_map ents)).

End get_function_complexity.

End Complexity.

(** ** The coverage panel of [main_app.main]

    What the panel computes for the selected file (lines 45 to 64 and 80 of
    [main_app.py]); the calls that draw it are left out. *)

Module MainApp.

Record panel : Type := {
  syntax_error_shown : bool;
  total_funcs : nat;
  documented_funcs : nat;
  undocumented_funcs : nat;
  panel_coverage : float;
  offers_apply : bool
}.

(** [e.get("Type") in ("Function", "Method")]. *)
Definition is_callable_row (e : entity_row) : bool :=
  match Type_ e with
  | Function | Method => true
  | Class => false
  end.

Definition panel_of (syntax_error : bool) (entities : list entity_row) : panel :=
  let func_entities := List.filter is_callable_row entities in
  let total_funcs := length func_entities in
  let documented := length (List.filter Has_Docstring func_entities) in
  let undocumented := total_funcs - documented in
  let coverage :=
    if 0 <? total_funcs
    then PrimFloat.mul (Float.truediv documented total_funcs) (Float.of_Z 100)
    else 0%float in
  {| syntax_error_shown := syntax_error;
     total_funcs := total_funcs;
     documented_funcs := documented;
     undocumented_funcs := undocumented;
     panel_coverage := coverage;
     offers_apply := documented <? total_funcs |}.

(** [None]: the file does not exist and nothing is shown.  A [SyntaxError]
    of [get_entity_list] is caught and the panel is computed from an empty
    list; any other exception leaves [main]. *)
Definition coverage_panel (fs : filesystem) (file_to_scan : string)
    : option (result panel) :=
  if exists_ fs file_to_scan then
    Some (match get_entity_list fs file_to_scan with
          | Ok entities => Ok (panel_of false entities)
          | Raise SyntaxError => Ok (panel_of true [])
          | Raise e => Raise e
          end)
  else None.

End MainApp.

(** ** [apply_missing_docstrings] with its write

    [Inserter.apply_missing_docstrings] is the list that the function hands
    to [writelines].  Whether [open(file_path, "w")] and [writelines]
    (lines 222 and 223) succeed is decided outside the program, by the
    permissions of the file and the state of the disk: their outcome is a
    parameter.  The result is the list written. *)

Module Writer.

Section apply_missing_docstrings.

Variable write : string -> list string -> result ().

Definition apply_missing_docstrings (fs : filesystem) (file_path : string)
    : result (list string) :=
  lines ← Inserter.apply_missing_docstrings fs file_path;
  write file_path lines;;
  Ok lines.

End apply_missing_docstrings.

End Writer.

(** * Further properties *)

(** ** The traversal *)

Module ExtractorFacts.

Import Ast Extractor Inventory Flattener Declarations Coverage.

(** X1: visiting a statement leaves [_current_class] and the module entry
    as they were, only appends to the module-level functions, never removes
    a class, and changes a class already recorded only by appending to its
    methods. *)
Theorem visit_only_appends (node : stmt) (self : DocstringExtractor) :
  valid self ->
  let self' := visit node self in
  _current_class self' = _current_class self
  /\ module (entities self') = module (entities self)
  /\ functions (entities self) `prefix_of` functions (entities self')
  /\ classes (entities self') !! length (classes (entities self))
     = class_decls node !! 0
  /\ forall i c,
       classes (entities self) !! i = Some c ->
       exists c',
         classes (entities self') !! i = Some c'
         /\ c_name c' = c_name c /\ c_docstring c' = c_docstring c
         /\ c_line c' = c_line c /\ c_end_line c' = c_end_line c
         /\ c_methods c `prefix_of` c_methods c'.
Proof.
  intros Hvalid self'. unfold self'. rewrite visit_record by done.
  destruct self as [[m cls fns] cur]. unfold record, valid in *.
  cbn [entities _current_class module classes functions] in *.
  split; [done|]. split; [done|]. split; [|split].
  - destruct cur; [done | by apply prefix_app_r].
  - destruct cur as [ref|].
    + rewrite lookup_app_r by (rewrite length_alter; lia).
      rewrite length_alter. by rewrite Nat.sub_diag.
    + rewrite lookup_app_r by lia. by rewrite Nat.sub_diag.
  - intros i c Hc. pose proof (lookup_lt_Some _ _ _ Hc) as Hi.
    destruct cur as [ref|].
    + rewrite lookup_app_l by (rewrite length_alter; lia).
      destruct (decide (ref = i)) as [->|Hne].
      * rewrite list_lookup_alter_eq, Hc. eexists. split; [done|].
        cbn. repeat split; try done. by apply prefix_app_r.
      * rewrite list_lookup_alter_ne by done. by exists c.
    + rewrite lookup_app_l by lia. by exists c.
Qed.

Lemma visit_only_appends_witness :
  _current_class
    (visit (ClassDef "Shape"
              [FunctionDef "area" (Samples.positional ["self"])
                 [Samples.simple] 2 3] 1 3)
       __init__)
  = _current_class __init__.
Proof.
  refine (proj1 (visit_only_appends _ __init__ _)). exact I.
Defined.

(** A function body cut down to its docstring statement. *)
Definition docstring_only (body : list stmt) : list stmt :=
  match body with
  | Expr (Constant_str text) :: _ => [Expr (Constant_str text)]
  | _ => []
  end.

(** A statement with every function body cut down to its docstring. *)
Fixpoint strip (node : stmt) : stmt :=
  match node with
  | FunctionDef name params body lineno end_lineno =>
      FunctionDef name params (docstring_only body) lineno end_lineno
  | AsyncFunctionDef name params body lineno end_lineno =>
      AsyncFunctionDef name params (docstring_only body) lineno end_lineno
  | ClassDef name body lineno end_lineno =>
      ClassDef name (map strip body) lineno end_lineno
  | Expr value => Expr value
  | Other children => Other (map strip children)
  end.

Lemma get_docstring_docstring_only body :
  get_docstring (docstring_only body) = get_docstring body.
Proof. by destruct body as [|[| | |[|]|] ?]. Qed.

Lemma get_docstring_map_strip body :
  get_docstring (map strip body) = get_docstring body.
Proof. by destruct body as [|[| | |[|]|] ?]. Qed.

Lemma own_callables_strip node : own_callables (strip node) = own_callables node.
Proof.
  induction node as [? ? ? ? ? _|? ? ? ? ? _|? ? ? ? _|?|? IH]
    using stmt_ind_nested; cbn [strip own_callables]; try done.
  - unfold make_func_info. by rewrite get_docstring_docstring_only.
  - unfold make_func_info. by rewrite get_docstring_docstring_only.
  - rewrite flat_map_map. by apply flat_map_ext_Forall.
Qed.

Lemma class_decls_strip node : class_decls (strip node) = class_decls node.
Proof.
  induction node as [? ? ? ? ? _|? ? ? ? ? _|name body ? ? IH|?|? IH]
    using stmt_ind_nested; cbn [strip class_decls]; try done.
  - f_equal.
    + unfold make_class_info. rewrite get_docstring_map_strip. f_equal.
      rewrite flat_map_map. apply flat_map_ext_Forall, Forall_forall.
      intros node _. apply own_callables_strip.
    + rewrite flat_map_map. by apply flat_map_ext_Forall.
  - rewrite flat_map_map. by apply flat_map_ext_Forall.
Qed.

(** X2: the inventory does not depend on what a function body contains
    after its docstring statement: functions and classes defined inside a
    function are never recorded. *)
Theorem extract_ignores_function_bodies (tree : Module) :
  extract {| body := map strip (body tree) |} = extract tree.
Proof.
  rewrite !extract_spec. cbn [body].
  rewrite get_docstring_map_strip, !flat_map_map. f_equal.
  - apply flat_map_ext_Forall, Forall_forall. intros node _.
    apply class_decls_strip.
  - apply flat_map_ext_Forall, Forall_forall. intros node _.
    apply own_callables_strip.
Qed.

Lemma length_filter_app {A : Type} (p : A -> bool) (l1 l2 : list A) :
  length (List.filter p (l1 ++ l2))
  = length (List.filter p l1) + length (List.filter p l2).
Proof. by rewrite List.filter_app, length_app. Qed.

Lemma class_block_counts (cls : list class_info) :
  length (flat_map (fun c => c_docstring c :: map f_docstring (c_methods c)) cls)
  = length (flat_map class_block cls)
  /\ length (List.filter truthy
               (flat_map (fun c => c_docstring c :: map f_docstring (c_methods c))
                  cls))
     = length (List.filter Has_Docstring (flat_map class_block cls)).
Proof.
  assert (forall fs kind,
            length (List.filter truthy (map f_docstring fs))
            = length (List.filter Has_Docstring (map (function_row kind) fs)))
    as Hrows.
  { intros fs kind. induction fs as [|f fs IH]; [done|].
    cbn [map List.filter function_row Has_Docstring].
    destruct (truthy (f_docstring f)); cbn [length]; by rewrite IH. }
  induction cls as [|c cls [IHl IHd]]; [done|].
  cbn [flat_map]. unfold class_block at 1 3. split.
  - cbn [app length]. rewrite !length_app, !length_map, IHl. reflexivity.
  - change (?x :: ?l ++ ?k) with ((x :: l) ++ k).
    rewrite !length_filter_app, IHd. f_equal.
    cbn [List.filter class_row Has_Docstring].
    destruct (truthy (c_docstring c)); cbn [length]; by rewrite (Hrows _ Method).
Qed.

(** X3: for any inventory the report counts exactly one entity more than
    [get_entity_list] lists, the module, and as many documented entities as
    there are rows with a docstring, plus one if the module has one. *)
Theorem report_counts_rows_plus_module (ents : Entities) :
  total (count_entities ents) = 1 + length (flatten ents)
  /\ documented (count_entities ents)
     = (if truthy (m_docstring (module ents)) then 1 else 0)
       + length (List.filter Has_Docstring (flatten ents)).
Proof.
  rewrite count_entities_eq, checks_eq, flatten_eq. cbn [total documented].
  destruct (class_block_counts (classes ents)) as [Hl Hd].
  assert (length (List.filter truthy (map f_docstring (functions ents)))
          = length (List.filter Has_Docstring
                      (map (function_row Function) (functions ents)))) as Hf.
  { induction (functions ents) as [|f fs IH]; [done|].
    cbn [map List.filter function_row Has_Docstring].
    destruct (truthy (f_docstring f)); cbn [length]; by rewrite IH. }
  split.
  - cbn [length]. rewrite !length_app, !length_map, Hl. lia.
  - cbn [List.filter].
    destruct (truthy (m_docstring (module ents))); cbn [length];
      rewrite !length_filter_app, Hd, Hf; lia.
Qed.

End ExtractorFacts.

(** ** The report as a whole *)

Module CoverageFacts.

Import Ast Extractor Declarations Coverage.

Lemma report_loop_ok_analysable fs files :
  forall report report',
    report_loop fs files report = Ok report' -> Forall (analysable fs) files.
Proof.
  induction files as [|p files IH]; intros report report' Hrun; [constructor|].
  destruct (fs !! p) as [[|lines [tree|]]|] eqn:Hfs.
  - by rewrite (report_loop_unreadable _ _ _ _ Hfs) in Hrun.
  - rewrite (report_loop_parsed _ _ _ _ _ _ Hfs) in Hrun.
    constructor; [unfold analysable; by rewrite Hfs | by eapply IH].
  - by rewrite (report_loop_syntax_error _ _ _ _ _ Hfs) in Hrun.
  - rewrite (report_loop_missing _ _ _ _ Hfs) in Hrun.
    constructor; [unfold analysable; by rewrite Hfs | by eapply IH].
Qed.

(** The report of a list that can be analysed, in closed form. *)
Definition report_of (fs : filesystem) (files : list string) : coverage_report :=
  finish {| p_files_analyzed := length files;
            p_total_entities :=
              sum_list (map (fun p => total (file_counts fs p)) files);
            p_documented_entities :=
              sum_list (map (fun p => documented (file_counts fs p)) files);
            p_details := add_details fs files ∅ |}.

Lemma report_closed_form fs files :
  Forall (analysable fs) files ->
  generate_coverage_report fs files = Ok (report_of fs files).
Proof.
  intros Hall. rewrite generate_coverage_report_eq.
  by rewrite (report_loop_ok fs files Hall).
Qed.

Lemma report_ok_closed_form fs files r :
  generate_coverage_report fs files = Ok r ->
  Forall (analysable fs) files /\ r = report_of fs files.
Proof.
  intros Hr.
  assert (Forall (analysable fs) files) as Hall.
  { rewrite generate_coverage_report_eq in Hr.
    destruct (report_loop fs files (start files)) as [report|] eqn:Hloop;
      [|done].
    by eapply report_loop_ok_analysable. }
  split; [done|]. rewrite (report_closed_form _ _ Hall) in Hr. by simplify_eq.
Qed.

Lemma add_details_empty_lookup fs files p :
  add_details fs files ∅ !! p
  = if decide (p ∈ files /\ exists_ fs p = true)
    then Some (file_entry (file_counts fs p)) else None.
Proof.
  case_decide as Hp.
  - destruct Hp. by apply add_details_lookup.
  - rewrite add_details_other; [apply lookup_empty|].
    destruct (decide (p ∈ files)); [right | by left].
    destruct (exists_ fs p); [|done]. exfalso. by apply Hp.
Qed.

Lemma file_counts_documented_le fs p :
  documented (file_counts fs p) <= total (file_counts fs p).
Proof.
  unfold file_counts.
  destruct (fs !! p) as [[|lines [tree|]]|]; cbn [total documented]; try lia.
  apply tree_stats_documented_le.
Qed.

Lemma file_counts_existing_pos fs p :
  analysable fs p -> exists_ fs p = true -> 1 <= total (file_counts fs p).
Proof.
  unfold analysable, exists_, file_counts.
  destruct (fs !! p) as [[|lines [tree|]]|]; try done.
  intros _ _. apply tree_stats_total_pos.
Qed.

(** X4: whenever a report is produced, [files_analyzed] is the length of
    the list given, not more entities are documented than there are, a path
    has a per-file entry exactly when it is in the list and exists, and
    every path of the list that exists accounts for at least one entity. *)
Theorem report_invariants (fs : filesystem) (files : list string)
    (r : coverage_report) :
  generate_coverage_report fs files = Ok r ->
  files_analyzed r = length files
  /\ documented_entities r <= total_entities r
  /\ (forall p, is_Some (details r !! p) <-> p ∈ files /\ exists_ fs p = true)
  /\ length (List.filter (exists_ fs) files) <= total_entities r.
Proof.
  intros [Hall ->]%report_ok_closed_form.
  unfold report_of, finish.
  cbn [files_analyzed documented_entities total_entities details
       p_files_analyzed p_documented_entities p_total_entities p_details].
  split; [done|]. split; [|split].
  - clear Hall. induction files as [|p files IH]; [done|].
    cbn [map sum_list_with]. unfold id in *.
    pose proof (file_counts_documented_le fs p). lia.
  - intros p. rewrite add_details_empty_lookup.
    case_decide as Hp; [by split | split; [by intros [? ?] | done]].
  - induction Hall as [|p files Hp _ IH]; [done|].
    cbn [map sum_list_with List.filter]. unfold id in *.
    destruct (exists_ fs p) eqn:Hex; [|lia].
    pose proof (file_counts_existing_pos fs p Hp Hex). cbn [length]. lia.
Qed.

Lemma report_invariants_witness :
  exists r,
    generate_coverage_report CoverageClaims.two_files ["notes.py"; "gone.py"]
    = Ok r
    /\ files_analyzed r = 2 /\ documented_entities r <= total_entities r.
Proof.
  destruct (generate_coverage_report CoverageClaims.two_files
              ["notes.py"; "gone.py"]) as [r|e] eqn:Hr;
    [|by vm_compute in Hr].
  exists r. split; [done|].
  destruct (report_invariants _ _ _ Hr) as (Hfa & Hle & _). by split.
Defined.

(** X5: the order of the paths does not matter: for a list that can be
    analysed, any rearrangement of it gives the same report. *)
Theorem report_order_independent (fs : filesystem) (files files' : list string) :
  Forall (analysable fs) files ->
  files ≡ₚ files' ->
  generate_coverage_report fs files' = generate_coverage_report fs files.
Proof.
  intros Hall Hperm.
  assert (Forall (analysable fs) files') as Hall' by by rewrite <- Hperm.
  rewrite !report_closed_form by done. f_equal. unfold report_of. f_equal.
  f_equal.
  - by rewrite Hperm.
  - apply sum_list_with_Permutation_proper. by apply fmap_Permutation.
  - apply sum_list_with_Permutation_proper. by apply fmap_Permutation.
  - apply map_eq. intros p. rewrite !add_details_empty_lookup.
    case_decide as H1; case_decide as H2; try done.
    + exfalso. apply H2. by rewrite Hperm.
    + exfalso. apply H1. by rewrite <- Hperm.
Qed.

Lemma report_order_independent_witness :
  generate_coverage_report CoverageClaims.two_files ["shapes.py"; "notes.py"]
  = generate_coverage_report CoverageClaims.two_files ["notes.py"; "shapes.py"].
Proof.
  apply report_order_independent.
  - repeat (constructor; [vm_compute; exact I|]). constructor.
  - apply Permutation_swap.
Defined.

(** X6: when no path of the list exists, the empty list included, the
    report has no entity and no per-file entry, and its overall coverage is
    the guard's [0.0]. *)
Theorem report_of_missing_paths (fs : filesystem) (files : list string) :
  Forall (fun p => fs !! p = None) files ->
  generate_coverage_report fs files
  = Ok {| files_analyzed := length files; total_entities := 0;
          documented_entities := 0; details := ∅;
          overall_coverage := 0%float |}.
Proof.
  intros Hmissing. rewrite generate_coverage_report_eq.
  assert (forall report, report_loop fs files report = Ok report) as Hloop.
  { induction Hmissing as [|p files Hp _ IH]; intros report; [done|].
    by rewrite (report_loop_missing _ _ _ _ Hp). }
  by rewrite Hloop.
Qed.

Lemma report_of_missing_paths_witness :
  total_entities
    <$> generate_coverage_report CoverageClaims.two_files ["gone.py"; "lost.py"]
  = Ok 0.
Proof.
  rewrite (report_of_missing_paths CoverageClaims.two_files
             ["gone.py"; "lost.py"]); [reflexivity|].
  repeat (constructor; [vm_compute; reflexivity|]). constructor.
Defined.

(** X7: the report stops at the first path of the list that exists and
    cannot be analysed, and raises what analysing that file raises,
    whatever follows it in the list. *)
Theorem first_broken_file_decides (fs : filesystem)
    (before after : list string) (file_path : string) (e : exn) :
  Forall (analysable fs) before ->
  analyze_file fs file_path = Raise e ->
  exists_ fs file_path = true ->
  generate_coverage_report fs (before ++ file_path :: after) = Raise e.
Proof.
  intros Hbefore Hraise Hexists.
  rewrite generate_coverage_report_eq, report_loop_app.
  rewrite (report_loop_ok fs before Hbefore). cbn [mbind result_bind].
  cbn [report_loop]. by rewrite Hexists, Hraise.
Qed.

Lemma first_broken_file_decides_witness :
  generate_coverage_report CoverageClaims.with_broken
    (["shapes.py"] ++ "broken.py" :: ["shapes.py"])
  = Raise SyntaxError.
Proof.
  apply first_broken_file_decides.
  - repeat (constructor; [vm_compute; exact I|]). constructor.
  - vm_compute. reflexivity.
  - vm_compute. reflexivity.
Defined.

Lemma size_add_details fs files :
  NoDup files ->
  forall m,
    (forall p, p ∈ files -> m !! p = None) ->
    size (add_details fs files m)
    = size m + length (List.filter (exists_ fs) files).
Proof.
  induction 1 as [|p files Hp _ IH]; intros m Hfresh.
  - cbn. lia.
  - rewrite add_details_cons. cbn [List.filter].
    destruct (exists_ fs p).
    + rewrite IH.
      * rewrite map_size_insert_None by (apply Hfresh; left). cbn [length]. lia.
      * intros q Hq. rewrite lookup_insert_ne by (intros ->; contradiction).
        apply Hfresh. by right.
    + apply IH. intros q Hq. apply Hfresh. by right.
Qed.

(** X8: for a list without repetition the report has one per-file entry
    for each path that exists; when all paths exist, as the callers arrange
    by filtering, [files_analyzed] is the number of per-file entries. *)
Theorem entries_of_distinct_paths (fs : filesystem) (files : list string)
    (r : coverage_report) :
  NoDup files ->
  generate_coverage_report fs files = Ok r ->
  size (details r) = length (List.filter (exists_ fs) files)
  /\ (Forall (fun p => exists_ fs p = true) files ->
      files_analyzed r = size (details r)).
Proof.
  intros Hnodup [Hall ->]%report_ok_closed_form.
  unfold report_of, finish. cbn [details files_analyzed p_details p_files_analyzed].
  rewrite size_add_details by done. rewrite map_size_empty.
  split; [lia|]. intros Hexist. cbn [Nat.add]. f_equal.
  clear Hall Hnodup. induction Hexist as [|p files Hp _ IH]; [done|].
  cbn [List.filter]. rewrite Hp. cbn [length]. by rewrite <- IH.
Qed.

Lemma entries_of_distinct_paths_witness :
  exists r,
    generate_coverage_report CoverageClaims.two_files ["notes.py"; "shapes.py"]
    = Ok r
    /\ size (details r) = 2.
Proof.
  destruct (generate_coverage_report CoverageClaims.two_files
              ["notes.py"; "shapes.py"]) as [r|e] eqn:Hr;
    [|by vm_compute in Hr].
  exists r. split; [done|].
  destruct (entries_of_distinct_paths CoverageClaims.two_files
              ["notes.py"; "shapes.py"] r) as [-> _]; [|done|].
  - apply NoDup_cons. split; [|apply NoDup_singleton].
    intros Hin%list_elem_of_singleton. discriminate.
  - vm_compute. reflexivity.
Defined.

(** X9: the counts of a list are the sums of the counts of its parts, so a
    path listed twice is counted twice in the totals, while the per-file
    entries are those of the parts put together and hold the path once. *)
Theorem report_of_concatenation (fs : filesystem) (files1 files2 : list string) :
  Forall (analysable fs) (files1 ++ files2) ->
  exists r r1 r2,
    generate_coverage_report fs (files1 ++ files2) = Ok r
    /\ generate_coverage_report fs files1 = Ok r1
    /\ generate_coverage_report fs files2 = Ok r2
    /\ files_analyzed r = files_analyzed r1 + files_analyzed r2
    /\ total_entities r = total_entities r1 + total_entities r2
    /\ documented_entities r = documented_entities r1 + documented_entities r2
    /\ details r = details r1 ∪ details r2.
Proof.
  intros Hall. pose proof Hall as [Hall1 Hall2]%Forall_app.
  exists (report_of fs (files1 ++ files2)), (report_of fs files1),
    (report_of fs files2).
  rewrite !report_closed_form by done.
  split; [done|]. split; [done|]. split; [done|].
  unfold report_of, finish.
  cbn [files_analyzed total_entities documented_entities details
       p_files_analyzed p_total_entities p_documented_entities p_details].
  split; [apply length_app|].
  rewrite !map_app, !sum_list_with_app.
  split; [done|]. split; [done|].
  apply map_eq. intros p.
  rewrite lookup_union, !add_details_empty_lookup.
  repeat case_decide; try done.
  - exfalso. rewrite elem_of_app in *. tauto.
  - exfalso. rewrite elem_of_app in *. tauto.
  - exfalso. rewrite elem_of_app in *. tauto.
  - exfalso. rewrite elem_of_app in *. tauto.
Qed.

Lemma report_of_concatenation_witness :
  exists r r1,
    generate_coverage_report CoverageClaims.two_files
      (["shapes.py"] ++ ["shapes.py"]) = Ok r
    /\ generate_coverage_report CoverageClaims.two_files ["shapes.py"] = Ok r1
    /\ total_entities r = total_entities r1 + total_entities r1
    /\ details r = details r1.
Proof.
  destruct (report_of_concatenation CoverageClaims.two_files
              ["shapes.py"] ["shapes.py"])
    as (r & r1 & r2 & Hr & Hr1 & Hr2 & _ & Ht & _ & Hd).
  - repeat (constructor; [vm_compute; exact I|]). constructor.
  - exists r, r1. rewrite Hr1 in Hr2. injection Hr2 as <-.
    split; [done|]. split; [done|]. split; [done|].
    rewrite Hd. apply (idemp (∪)).
Defined.

End CoverageFacts.

(** ** The insertion as a whole *)

Module InserterFacts.

Import Ast Extractor Inserter Splice Coverage.

(** *** One insertion and the loop *)

Lemma list_insert_at_perm {A : Type} (i : nat) (x : A) (l : list A) :
  list_insert_at i x l ≡ₚ x :: l.
Proof.
  unfold list_insert_at. rewrite <- Permutation_middle.
  by rewrite take_drop.
Qed.

Lemma list_insert_at_sublist {A : Type} (i : nat) (x : A) (l : list A) :
  l `sublist_of` list_insert_at i x l.
Proof.
  unfold list_insert_at. rewrite <- (take_drop i l) at 1.
  apply sublist_app; [done|]. by apply sublist_cons.
Qed.

Lemma insert_doc_perm lines p : insert_doc lines p ≡ₚ block p :: lines.
Proof.
  destruct p as [line_idx doc_str]. unfold insert_doc, block. cbn [snd].
  destruct (line_idx =? 0); apply list_insert_at_perm.
Qed.

Lemma insert_doc_sublist lines p : lines `sublist_of` insert_doc lines p.
Proof.
  destruct p as [line_idx doc_str]. unfold insert_doc.
  destruct (line_idx =? 0); apply list_insert_at_sublist.
Qed.

Lemma fold_insert_doc_perm applied lines :
  fold_left insert_doc applied lines ≡ₚ map block applied ++ lines.
Proof.
  revert lines. induction applied as [|p applied IH]; intros lines; [done|].
  cbn [fold_left map app]. rewrite IH, insert_doc_perm.
  by rewrite Permutation_middle.
Qed.

Lemma fold_insert_doc_sublist applied lines :
  lines `sublist_of` fold_left insert_doc applied lines.
Proof.
  revert lines. induction applied as [|p applied IH]; intros lines; [done|].
  cbn [fold_left]. etrans; [apply insert_doc_sublist | apply IH].
Qed.

Lemma insert_desc_perm p sorted : insert_desc p sorted ≡ₚ p :: sorted.
Proof.
  induction sorted as [|q sorted IH]; [done|]. cbn [insert_desc].
  destruct (q.1 <=? p.1); [done|]. rewrite IH. apply Permutation_swap.
Qed.

Lemma sort_desc_perm to_add : sort_desc to_add ≡ₚ to_add.
Proof.
  induction to_add as [|p to_add IH]; [done|]. cbn [sort_desc].
  by rewrite insert_desc_perm, IH.
Qed.

(** *** What is collected *)

Definition undocumented (docstring : option string) : bool :=
  negb (truthy docstring).

(** The header lines for which a block is collected, in collection order. *)
Definition class_pending_lines (cls : class_info) : list nat :=
  (if undocumented (c_docstring cls) then [c_line cls] else [])
  ++ map f_line
       (List.filter (fun f => undocumented (f_docstring f)) (c_methods cls)).

Definition declaration_pending_lines (ents : Entities) : list nat :=
  map f_line
    (List.filter (fun f => undocumented (f_docstring f)) (functions ents))
  ++ flat_map class_pending_lines (classes ents).

(** The line numbers collected: those header lines, then 0 for the module. *)
Definition pending_lines (ents : Entities) : list nat :=
  declaration_pending_lines ents
  ++ (if undocumented (m_docstring (module ents)) then [0] else []).

(** The line [lines[line - 1]] exists. *)
Definition line_in_file (lines : list string) (line : nat) : Prop :=
  match line with
  | 0 => lines <> []
  | S k => k < length lines
  end.

Lemma def_line_of_ok lines line :
  line_in_file lines line -> exists l, def_line_of lines line = Ok l.
Proof.
  destruct line as [|k]; cbn [line_in_file def_line_of].
  - intros Hne. destruct (last lines) as [l|] eqn:Hlast; [by exists l|].
    apply last_None in Hlast. contradiction.
  - intros Hk. destruct (lookup_lt_is_Some_2 lines k Hk) as [l ->].
    by exists l.
Qed.

Lemma def_line_of_raise lines line e :
  def_line_of lines line = Raise e ->
  e = IndexError /\ ~ line_in_file lines line.
Proof.
  destruct line as [|k]; cbn [line_in_file def_line_of].
  - destruct (last lines) as [l|] eqn:Hlast; [done|].
    apply last_None in Hlast. intros [= <-]. split; [done | by intros ?].
  - destruct (lines !! k) as [l|] eqn:Hl; [done|].
    apply lookup_ge_None in Hl. intros [= <-]. split; [done | lia].
Qed.

Lemma add_callable_documented lines acc f :
  truthy (f_docstring f) = true -> add_callable lines acc f = Ok acc.
Proof. intros Hdoc. unfold add_callable. by rewrite Hdoc. Qed.

Lemma add_callable_undocumented lines acc f :
  truthy (f_docstring f) = false ->
  add_callable lines acc f
  = (def_line ← def_line_of lines (f_line f);
     Ok (acc ++ [(f_line f,
                  generate_google_docstring (f_name f) (Some (f_args f))
                    false (indent_of def_line + 4))])).
Proof. intros Hdoc. unfold add_callable. by rewrite Hdoc. Qed.

Lemma add_class_documented lines acc c :
  truthy (c_docstring c) = true ->
  add_class lines acc c = for_each (add_callable lines) (c_methods c) acc.
Proof. intros Hdoc. unfold add_class. by rewrite Hdoc. Qed.

Lemma add_class_undocumented lines acc c :
  truthy (c_docstring c) = false ->
  add_class lines acc c
  = (def_line ← def_line_of lines (c_line c);
     for_each (add_callable lines) (c_methods c)
       (acc ++ [(c_line c,
                 generate_google_docstring (c_name c) None true
                   (indent_of def_line + 4))])).
Proof.
  intros Hdoc. unfold add_class. rewrite Hdoc. cbn [negb].
  by destruct (def_line_of lines (c_line c)).
Qed.

(** The outcome of one of the two loops over callables. *)
Lemma for_each_add_callable lines fs acc :
  match for_each (add_callable lines) fs acc with
  | Ok res =>
      exists new,
        res = acc ++ new
        /\ map fst new
           = map f_line
               (List.filter (fun f => undocumented (f_docstring f)) fs)
  | Raise e =>
      e = IndexError
      /\ ~ Forall (line_in_file lines)
             (map f_line
                (List.filter (fun f => undocumented (f_docstring f)) fs))
  end.
Proof.
  revert acc. induction fs as [|f fs IH]; intros acc.
  - cbn. exists []. by rewrite app_nil_r.
  - cbn [for_each List.filter].
    destruct (truthy (f_docstring f)) eqn:Hdoc.
    + replace (undocumented (f_docstring f)) with false
        by (unfold undocumented; by rewrite Hdoc).
      rewrite add_callable_documented by done. cbn [mbind result_bind].
      apply IH.
    + replace (undocumented (f_docstring f)) with true
        by (unfold undocumented; by rewrite Hdoc).
      rewrite add_callable_undocumented by done.
      destruct (def_line_of lines (f_line f)) as [l|e] eqn:Hline;
        cbn [mbind result_bind].
      * match goal with
        | |- context [for_each (add_callable lines) fs ?a] =>
            specialize (IH a);
            destruct (for_each (add_callable lines) fs a) as [res|e]
        end.
        -- destruct IH as (new & -> & Hnew). eexists (_ :: new).
           split; [by rewrite <- app_assoc|]. cbn [map fst]. by rewrite Hnew.
        -- destruct IH as [-> Hnot]. split; [done|]. cbn [map].
           intros Hall. apply Hnot. by inversion Hall.
      * apply def_line_of_raise in Hline as [-> Hnot].
        split; [done|]. cbn [map]. intros Hall. apply Hnot. by inversion Hall.
Qed.

Lemma for_each_add_class lines cls acc :
  match for_each (add_class lines) cls acc with
  | Ok res =>
      exists new,
        res = acc ++ new
        /\ map fst new = flat_map class_pending_lines cls
  | Raise e =>
      e = IndexError
      /\ ~ Forall (line_in_file lines) (flat_map class_pending_lines cls)
  end.
Proof.
  revert acc. induction cls as [|c cls IH]; intros acc.
  - cbn. exists []. by rewrite app_nil_r.
  - cbn [for_each flat_map]. unfold class_pending_lines at 1 3.
    assert (forall acc0,
              match for_each (add_callable lines) (c_methods c) acc0
                    ≫= for_each (add_class lines) cls with
              | Ok res =>
                  exists new,
                    res = acc0 ++ new
                    /\ map fst new
                       = map f_line
                           (List.filter
                              (fun f => undocumented (f_docstring f))
                              (c_methods c))
                         ++ flat_map class_pending_lines cls
              | Raise e =>
                  e = IndexError
                  /\ ~ Forall (line_in_file lines)
                         (map f_line
                            (List.filter
                               (fun f => undocumented (f_docstring f))
                               (c_methods c))
                          ++ flat_map class_pending_lines cls)
              end) as Hrest.
    { intros acc0.
      pose proof (for_each_add_callable lines (c_methods c) acc0) as Hm.
      destruct (for_each (add_callable lines) (c_methods c) acc0) as [mid|e];
        cbn [mbind result_bind].
      - destruct Hm as (newm & -> & Hnewm). specialize (IH (acc0 ++ newm)).
        destruct (for_each (add_class lines) cls (acc0 ++ newm)) as [res|e].
        + destruct IH as (new & -> & Hnew). exists (newm ++ new).
          split; [by rewrite <- !app_assoc|]. by rewrite map_app, Hnewm, Hnew.
        + destruct IH as [-> Hnot]. split; [done|].
          intros Hall. apply Hnot. by apply Forall_app in Hall as [_ ?].
      - destruct Hm as [-> Hnot]. split; [done|].
        intros Hall. apply Hnot. by apply Forall_app in Hall as [? _]. }
    destruct (truthy (c_docstring c)) eqn:Hdoc.
    + replace (undocumented (c_docstring c)) with false
        by (unfold undocumented; by rewrite Hdoc).
      cbn [app]. rewrite add_class_documented by done. apply Hrest.
    + replace (undocumented (c_docstring c)) with true
        by (unfold undocumented; by rewrite Hdoc).
      cbn [app]. rewrite add_class_undocumented by done.
      destruct (def_line_of lines (c_line c)) as [l|e] eqn:Hline;
        cbn [mbind result_bind].
      * match goal with
        | |- context [for_each (add_callable lines) (c_methods c) ?a] =>
            specialize (Hrest a);
            destruct (for_each (add_callable lines) (c_methods c) a
                        ≫= for_each (add_class lines) cls) as [res|e]
        end.
        -- destruct Hrest as (new & -> & Hnew). eexists (_ :: new).
           split; [by rewrite <- app_assoc|]. cbn [map fst]. by rewrite Hnew.
        -- destruct Hrest as [-> Hnot]. split; [done|].
           intros Hall. apply Hnot. by inversion Hall.
      * apply def_line_of_raise in Hline as [-> Hnot].
        split; [done|]. intros Hall. apply Hnot. by inversion Hall.
Qed.

(** The outcome of [collect]. *)
Lemma collect_outcome file_path ents lines :
  match collect file_path ents lines with
  | Ok to_add => map fst to_add = pending_lines ents
  | Raise e =>
      e = IndexError
      /\ ~ Forall (line_in_file lines) (declaration_pending_lines ents)
  end.
Proof.
  unfold collect, pending_lines, declaration_pending_lines.
  pose proof (for_each_add_callable lines (functions ents) []) as Hf.
  destruct (for_each (add_callable lines) (functions ents) []) as [l1|e].
  - destruct Hf as (new1 & -> & Hnew1). cbn [mbind result_bind app].
    pose proof (for_each_add_class lines (classes ents) new1) as Hc.
    destruct (for_each (add_class lines) (classes ents) new1) as [l2|e].
    + destruct Hc as (new2 & -> & Hnew2). cbn [mbind result_bind].
      unfold add_module, undocumented.
      destruct (negb (truthy (m_docstring (module ents)))).
      * rewrite !map_app, Hnew1, Hnew2. reflexivity.
      * by rewrite map_app, Hnew1, Hnew2, app_nil_r.
    + destruct Hc as [-> Hnot]. cbn [mbind result_bind]. split; [done|].
      intros Hall. apply Hnot. by apply Forall_app in Hall as [_ ?].
  - destruct Hf as [-> Hnot]. cbn [mbind result_bind]. split; [done|].
    intros Hall. apply Hnot. by apply Forall_app in Hall as [? _].
Qed.

(** As many lines are collected as the report counts entities without
    documentation. *)
Lemma length_filter_undocumented (docs : list (option string)) :
  length (List.filter undocumented docs)
  = length docs - length (List.filter truthy docs).
Proof.
  induction docs as [|d docs IH]; [done|].
  cbn [List.filter]. unfold undocumented at 1.
  pose proof (List.filter_length_le truthy docs).
  destruct (truthy d); cbn [negb length]; lia.
Qed.

Lemma pending_lines_docstrings (ents : Entities) :
  length (pending_lines ents)
  = length (List.filter undocumented
              (m_docstring (module ents)
               :: flat_map (fun c => c_docstring c
                                     :: map f_docstring (c_methods c))
                    (classes ents)
               ++ map f_docstring (functions ents))).
Proof.
  assert (forall fs,
            length (map f_line
                      (List.filter (fun f => undocumented (f_docstring f)) fs))
            = length (List.filter undocumented (map f_docstring fs))) as Hfs.
  { intros fs. induction fs as [|f fs IH]; [done|].
    cbn [map List.filter]. destruct (undocumented (f_docstring f));
      cbn [map length]; by rewrite IH. }
  unfold pending_lines. rewrite length_app.
  assert (length (declaration_pending_lines ents)
          = length (List.filter undocumented
                      (flat_map (fun c => c_docstring c
                                          :: map f_docstring (c_methods c))
                         (classes ents)
                       ++ map f_docstring (functions ents)))) as ->;
    [|cbn [List.filter];
      destruct (undocumented (m_docstring (module ents))); cbn [length]; lia].
  unfold declaration_pending_lines.
  rewrite List.filter_app, !length_app, Hfs.
  assert (length (flat_map class_pending_lines (classes ents))
          = length (List.filter undocumented
                      (flat_map (fun c => c_docstring c
                                          :: map f_docstring (c_methods c))
                         (classes ents)))) as ->.
  { induction (classes ents) as [|c cls IH]; [done|].
    cbn [flat_map]. rewrite length_app, IH.
    change (?x :: ?l ++ ?k) with ((x :: l) ++ k).
    rewrite List.filter_app, length_app. f_equal.
    unfold class_pending_lines. rewrite length_app, Hfs.
    cbn [List.filter]. by destruct (undocumented (c_docstring c)). }
  lia.
Qed.

Lemma length_pending_lines (ents : Entities) :
  length (pending_lines ents)
  = total (count_entities ents) - documented (count_entities ents).
Proof.
  rewrite pending_lines_docstrings, length_filter_undocumented.
  rewrite count_entities_eq, checks_eq. by cbn [total documented Nat.add].
Qed.

End InserterFacts.

Module InserterLaws.

Import Ast Extractor Inserter Splice Coverage InserterFacts.

(** X10: whenever the rewrite succeeds, the lines written hold every
    original line, unchanged and in the original order, and each collected
    block exactly once; nothing else is written. *)
Theorem rewrite_keeps_every_line (fs : filesystem) (file_path : string)
    (out : list string) :
  apply_missing_docstrings fs file_path = Ok out ->
  exists lines tree to_add,
    fs !! file_path = Some (Readable lines (Some tree))
    /\ collect file_path (extract tree) lines = Ok to_add
    /\ lines `sublist_of` out
    /\ out ≡ₚ map block to_add ++ lines
    /\ length out = length lines + length to_add.
Proof.
  unfold apply_missing_docstrings, analyze_file, parse_file, readlines.
  destruct (fs !! file_path) as [[|lines [tree|]]|] eqn:Hfs; try done.
  cbn [mbind result_bind].
  destruct (collect file_path (extract tree) lines) as [to_add|] eqn:Hcollect;
    [|done].
  cbn [mbind result_bind]. intros [= <-]. exists lines, tree, to_add.
  assert (apply_insertions to_add lines ≡ₚ map block to_add ++ lines) as Hperm.
  { unfold apply_insertions. rewrite fold_insert_doc_perm.
    by rewrite sort_desc_perm. }
  split; [done|]. split; [done|].
  split; [apply fold_insert_doc_sublist|]. split; [done|].
  rewrite Hperm, length_app, length_map. lia.
Qed.

Lemma rewrite_keeps_every_line_witness :
  exists out,
    apply_missing_docstrings InserterClaims.wrapped_fs "pkg/wrapped.py" = Ok out
    /\ InserterClaims.wrapped_lines `sublist_of` out.
Proof.
  destruct (apply_missing_docstrings InserterClaims.wrapped_fs "pkg/wrapped.py")
    as [out|e] eqn:Hout; [|by vm_compute in Hout].
  exists out. split; [done|].
  destruct (rewrite_keeps_every_line _ _ _ Hout)
    as (lines & tree & to_add & Hfs & _ & Hsub & _).
  vm_compute in Hfs. by injection Hfs as <- _.
Defined.

(** X11: the blocks collected for a file are as many as the entities that
    the coverage report counts without documentation, and their line numbers
    are the header lines of the undocumented functions, then of each
    undocumented class followed by its undocumented methods, then 0 for an
    undocumented module. *)
Theorem insertions_match_report (file_path : string) (ents : Entities)
    (lines : list string) (to_add : list pending) :
  collect file_path ents lines = Ok to_add ->
  length to_add
  = total (count_entities ents) - documented (count_entities ents)
  /\ map fst to_add = pending_lines ents.
Proof.
  intros Hcollect. pose proof (collect_outcome file_path ents lines) as Hout.
  rewrite Hcollect in Hout. split; [|done].
  by rewrite <- length_pending_lines, <- Hout, length_map.
Qed.

Lemma insertions_match_report_witness :
  length InserterClaims.wrapped_to_add = 4.
Proof.
  rewrite (proj1 (insertions_match_report "pkg/wrapped.py"
                    (extract InserterClaims.wrapped_tree)
                    InserterClaims.wrapped_lines
                    InserterClaims.wrapped_to_add ltac:(vm_compute; reflexivity))).
  reflexivity.
Defined.

(** X12: a file in which the report finds every entity documented is
    written back with exactly the lines it had. *)
Theorem documented_file_unchanged (fs : filesystem) (file_path : string)
    (lines : list string) (tree : Module) :
  fs !! file_path = Some (Readable lines (Some tree)) ->
  documented (count_entities (extract tree))
  = total (count_entities (extract tree)) ->
  apply_missing_docstrings fs file_path = Ok lines.
Proof.
  intros Hfs Hall.
  unfold apply_missing_docstrings, analyze_file, parse_file, readlines.
  rewrite Hfs. cbn [mbind result_bind].
  pose proof (collect_outcome file_path (extract tree) lines) as Hout.
  pose proof (length_pending_lines (extract tree)) as Hlen.
  rewrite Hall, Nat.sub_diag in Hlen.
  assert (pending_lines (extract tree) = []) as Hnone
    by by apply length_zero_iff_nil.
  destruct (collect file_path (extract tree) lines) as [to_add|e].
  - rewrite Hnone in Hout. apply map_eq_nil in Hout as ->. reflexivity.
  - destruct Hout as [_ Hnot]. exfalso. apply Hnot.
    unfold pending_lines in Hnone. apply app_eq_nil in Hnone as [-> _].
    constructor.
Qed.

Lemma documented_file_unchanged_witness :
  apply_missing_docstrings CoverageClaims.two_files "notes.py"
  = Ok CoverageClaims.notes_lines.
Proof.
  apply (documented_file_unchanged CoverageClaims.two_files "notes.py"
           CoverageClaims.notes_lines CoverageClaims.notes_tree).
  - vm_compute. reflexivity.
  - vm_compute. reflexivity.
Defined.

(** X13: for a file that parses, when the line at the line number of
    every undocumented class and callable is a line of the file, nothing is
    raised before the file is opened for writing: the call succeeds exactly
    when the write does and otherwise raises what the write raises.  An
    exception of the call is either [IndexError], one of those lines not
    being in the file, or the exception of the write. *)
Theorem rewrite_needs_header_lines
    (write : string -> list string -> result ())
    (fs : filesystem) (file_path : string)
    (lines : list string) (tree : Module) :
  fs !! file_path = Some (Readable lines (Some tree)) ->
  (Forall (line_in_file lines) (declaration_pending_lines (extract tree)) ->
   exists out,
     Inserter.apply_missing_docstrings fs file_path = Ok out
     /\ Writer.apply_missing_docstrings write fs file_path
        = (write file_path out;; Ok out))
  /\ (forall e,
        Writer.apply_missing_docstrings write fs file_path = Raise e ->
        (e = IndexError
         /\ ~ Forall (line_in_file lines)
                (declaration_pending_lines (extract tree)))
        \/ (exists out,
              Inserter.apply_missing_docstrings fs file_path = Ok out
              /\ write file_path out = Raise e)).
Proof.
  intros Hfs. unfold Writer.apply_missing_docstrings.
  unfold Inserter.apply_missing_docstrings, analyze_file, parse_file, readlines.
  rewrite Hfs. cbn [mbind result_bind].
  pose proof (collect_outcome file_path (extract tree) lines) as Hout.
  destruct (collect file_path (extract tree) lines) as [to_add|e0];
    cbn [mbind result_bind].
  - split; [by eexists|]. intros e Hraise. right.
    exists (apply_insertions to_add lines). split; [done|].
    destruct (write file_path (apply_insertions to_add lines)) as [u|e1];
      cbn [mbind result_bind] in Hraise; [done | by injection Hraise as ->].
  - destruct Hout as [-> Hnot]. split; [done|].
    intros e [= <-]. by left.
Qed.

Lemma rewrite_needs_header_lines_witness :
  (exists out,
     Writer.apply_missing_docstrings (fun _ _ => Ok ())
       Samples.shapes_fs "shapes.py" = Ok out)
  /\ Writer.apply_missing_docstrings (fun _ _ => Raise PermissionError)
       Samples.shapes_fs "shapes.py" = Raise PermissionError.
Proof.
  assert (Forall (line_in_file Samples.shapes_lines)
            (declaration_pending_lines (extract Samples.shapes_tree)))
    as Hlines.
  { repeat (constructor; [vm_compute; lia|]). constructor. }
  split.
  - destruct (rewrite_needs_header_lines (fun _ _ => Ok ())
                Samples.shapes_fs "shapes.py"
                Samples.shapes_lines Samples.shapes_tree eq_refl)
      as [Hok _].
    destruct (Hok Hlines) as (out & _ & ->). by exists out.
  - destruct (rewrite_needs_header_lines (fun _ _ => Raise PermissionError)
                Samples.shapes_fs "shapes.py"
                Samples.shapes_lines Samples.shapes_tree eq_refl)
      as [Hok _].
    destruct (Hok Hlines) as (out & _ & ->). reflexivity.
Defined.

(** X14: when the header line of a declaration itself contains a colon,
    its block is inserted right after that line: the first [line_idx] lines
    stay in front of it. *)
Theorem insert_after_one_line_header (lines : list string) (line_idx : nat)
    (doc_str l : string) :
  1 <= line_idx ->
  lines !! (line_idx - 1) = Some l ->
  has_colon l = true ->
  insert_doc lines (line_idx, doc_str)
  = take line_idx lines ++ (doc_str +:+ PyStr.nl) :: drop line_idx lines.
Proof.
  intros Hpos Hl Hcolon. unfold insert_doc.
  replace (line_idx =? 0) with false by (symmetry; apply Nat.eqb_neq; lia).
  pose proof (header_end_ge lines line_idx).
  pose proof (header_end_least lines line_idx (line_idx - 1) l
                ltac:(lia) Hl Hcolon).
  replace (header_end lines line_idx + 1) with line_idx by lia.
  reflexivity.
Qed.

Lemma insert_after_one_line_header_witness :
  insert_doc Samples.shapes_lines (4, "doc")
  = take 4 Samples.shapes_lines
    ++ ("doc" +:+ PyStr.nl) :: drop 4 Samples.shapes_lines.
Proof.
  apply (insert_after_one_line_header Samples.shapes_lines 4 "doc"
           (Samples.line "def helper():")).
  - lia.
  - reflexivity.
  - reflexivity.
Defined.

Lemma scan_without_colon rest start :
  Forall (fun l => has_colon l = false) rest ->
  scan rest start = start + length rest.
Proof.
  intros Hnone. revert start.
  induction Hnone as [|l rest Hl _ IH]; intros start; cbn [scan length].
  - lia.
  - rewrite Hl, IH. lia.
Qed.

(** X15: when no line from the header line to the end of the file contains
    a colon, the block is appended after the last line. *)
Theorem insert_without_colon_appends (lines : list string) (line_idx : nat)
    (doc_str : string) :
  1 <= line_idx <= length lines ->
  Forall (fun l => has_colon l = false) (drop (line_idx - 1) lines) ->
  insert_doc lines (line_idx, doc_str) = lines ++ [doc_str +:+ PyStr.nl].
Proof.
  intros Hrange Hnone. unfold insert_doc, header_end.
  replace (line_idx =? 0) with false by (symmetry; apply Nat.eqb_neq; lia).
  rewrite (scan_without_colon _ _ Hnone), length_drop.
  unfold list_insert_at. by rewrite take_ge, drop_ge by lia.
Qed.

Lemma insert_without_colon_appends_witness :
  insert_doc [Samples.line "x = 1"; Samples.line "y = 2"] (2, "doc")
  = [Samples.line "x = 1"; Samples.line "y = 2"] ++ ["doc" +:+ PyStr.nl].
Proof.
  apply insert_without_colon_appends.
  - cbn. lia.
  - repeat constructor.
Defined.

End InserterLaws.

(** ** The callers of the report *)

Module CallerFacts.

Import Coverage.

(** The report with another [files_analyzed]. *)
Definition set_files_analyzed (n : nat) (r : coverage_report)
    : coverage_report :=
  {| files_analyzed := n;
     total_entities := total_entities r;
     documented_entities := documented_entities r;
     details := details r;
     overall_coverage := overall_coverage r |}.

Lemma report_loop_filter_exists fs files report :
  report_loop fs (List.filter (exists_ fs) files) report
  = report_loop fs files report.
Proof.
  revert report. induction files as [|p files IH]; intros report; [done|].
  cbn [List.filter report_loop]. destruct (exists_ fs p) eqn:Hex.
  - cbn [report_loop negb]. rewrite Hex. cbn [negb].
    destruct (analyze_file fs p) as [ents|e]; [|done].
    cbn [mbind result_bind]. apply IH.
  - cbn [negb]. apply IH.
Qed.

(** X16: both callers keep only the paths that exist before asking for the
    report ([__main__] of [doc_steward.py], the button of [main_app.py]).
    That changes nothing but [files_analyzed], which then counts the
    existing paths: counts, per-file entries, overall coverage and any
    exception raised are those of the full list. *)
Theorem filtering_changes_files_analyzed_only (fs : filesystem)
    (files : list string) :
  generate_coverage_report fs (List.filter (exists_ fs) files)
  = set_files_analyzed (length (List.filter (exists_ fs) files))
      <$> generate_coverage_report fs files.
Proof.
  rewrite !generate_coverage_report_eq, report_loop_filter_exists.
  change (start (List.filter (exists_ fs) files))
    with (with_files_analyzed (length (List.filter (exists_ fs) files))
            (start files)).
  rewrite report_loop_files_analyzed.
  by destruct (report_loop fs files (start files)).
Qed.

End CallerFacts.

(** ** The coverage panel *)

Module PanelFacts.

Import Ast Extractor Inserter Flattener Coverage MainApp InserterFacts.

(** The functions and methods of an inventory, in the order of the rows. *)
Definition callables (ents : Entities) : list func_info :=
  functions ents ++ flat_map c_methods (classes ents).

Definition has_doc (f : func_info) : bool := truthy (f_docstring f).

Lemma length_filter_negb {A : Type} (p : A -> bool) (l : list A) :
  length (List.filter p l) + length (List.filter (fun x => negb (p x)) l)
  = length l.
Proof.
  induction l as [|x l IH]; [done|]. cbn [List.filter].
  destruct (p x); cbn [negb length]; lia.
Qed.

Lemma length_filter_lt {A : Type} (p : A -> bool) (l : list A) :
  length (List.filter p l) < length l <-> Exists (fun x => p x = false) l.
Proof.
  induction l as [|x l IH]; cbn [List.filter length].
  - split; [lia | by intros ?%Exists_nil].
  - rewrite Exists_cons. pose proof (List.filter_length_le p l).
    destruct (p x) eqn:Hx; cbn [length].
    + rewrite <- IH. split; [intros; right; lia | intros [|]; [done | lia]].
    + split; [by left | lia].
Qed.

Lemma callable_rows_of kind fs :
  kind <> Class ->
  List.filter is_callable_row (map (function_row kind) fs)
  = map (function_row kind) fs.
Proof.
  intros Hkind. induction fs as [|f fs IH]; [done|].
  cbn [map List.filter]. rewrite IH. by destruct kind.
Qed.

Lemma documented_rows_of kind fs :
  List.filter Has_Docstring (map (function_row kind) fs)
  = map (function_row kind) (List.filter has_doc fs).
Proof.
  induction fs as [|f fs IH]; [done|].
  cbn [map List.filter function_row Has_Docstring]. unfold has_doc at 1.
  destruct (truthy (f_docstring f)); cbn [map]; by rewrite IH.
Qed.

Lemma callable_rows (ents : Entities) :
  List.filter is_callable_row (flatten ents)
  = map (function_row Function) (functions ents)
    ++ map (function_row Method) (flat_map c_methods (classes ents)).
Proof.
  rewrite flatten_eq, List.filter_app, filter_flat_map, map_flat_map.
  rewrite callable_rows_of by done. f_equal.
  apply flat_map_ext_Forall, Forall_forall. intros c _.
  unfold class_block. cbn [List.filter].
  replace (is_callable_row (class_row c)) with false by done.
  by apply callable_rows_of.
Qed.

Lemma panel_of_flatten (syntax_error : bool) (ents : Entities) :
  total_funcs (panel_of syntax_error (flatten ents)) = length (callables ents)
  /\ documented_funcs (panel_of syntax_error (flatten ents))
     = length (List.filter has_doc (callables ents)).
Proof.
  unfold panel_of. cbn [total_funcs documented_funcs].
  rewrite callable_rows. unfold callables. split.
  - by rewrite !length_app, !length_map.
  - by rewrite !List.filter_app, !documented_rows_of, !length_app, !length_map.
Qed.

Lemma coverage_panel_parsed fs file_to_scan lines tree :
  fs !! file_to_scan = Some (Readable lines (Some tree)) ->
  coverage_panel fs file_to_scan
  = Some (Ok (panel_of false (flatten (extract tree)))).
Proof.
  intros Hfs.
  unfold coverage_panel, exists_, get_entity_list, analyze_file, parse_file.
  by rewrite Hfs.
Qed.

Lemma total_with_classes (ents : Entities) :
  total (count_entities ents)
  = 1 + length (classes ents) + length (callables ents).
Proof.
  rewrite count_entities_eq, checks_eq. cbn [total length Nat.add].
  rewrite length_app, length_map. unfold callables. rewrite length_app.
  assert (length (flat_map (fun c => c_docstring c :: map f_docstring (c_methods c))
                    (classes ents))
          = length (classes ents) + length (flat_map c_methods (classes ents)))
    as ->; [|lia].
  induction (classes ents) as [|c cls IH]; [done|].
  cbn [flat_map length app]. rewrite !length_app, length_map, IH. lia.
Qed.

(** X17: for a file that parses, the panel counts the functions and the
    methods of the inventory and nothing else: its total, its documented
    count and the undocumented rest; the classes and the module, which the
    report counts, are left out. *)
Theorem panel_counts_callables (fs : filesystem) (file_to_scan : string)
    (lines : list string) (tree : Module) :
  fs !! file_to_scan = Some (Readable lines (Some tree)) ->
  exists p,
    coverage_panel fs file_to_scan = Some (Ok p)
    /\ syntax_error_shown p = false
    /\ total_funcs p = length (callables (extract tree))
    /\ documented_funcs p
       = length (List.filter has_doc (callables (extract tree)))
    /\ documented_funcs p + undocumented_funcs p = total_funcs p
    /\ total (count_entities (extract tree))
       = 1 + length (classes (extract tree)) + total_funcs p.
Proof.
  intros Hfs. exists (panel_of false (flatten (extract tree))).
  split; [exact (coverage_panel_parsed _ _ _ _ Hfs)|].
  destruct (panel_of_flatten false (extract tree)) as [Ht Hd].
  split; [done|]. split; [done|]. split; [done|]. split.
  - unfold panel_of. cbn [documented_funcs undocumented_funcs total_funcs].
    pose proof (List.filter_length_le Has_Docstring
                  (List.filter is_callable_row (flatten (extract tree)))).
    lia.
  - by rewrite Ht, total_with_classes.
Qed.

Lemma panel_counts_callables_witness :
  exists p,
    coverage_panel Samples.shapes_fs "shapes.py" = Some (Ok p)
    /\ total_funcs p = 2.
Proof.
  destruct (panel_counts_callables Samples.shapes_fs "shapes.py"
              Samples.shapes_lines Samples.shapes_tree)
    as (p & Hp & _ & Ht & _); [reflexivity|].
  exists p. split; [done|]. rewrite Ht. reflexivity.
Defined.

Lemma undocumented_funcs_of (syntax_error : bool) (ents : Entities) :
  undocumented_funcs (panel_of syntax_error (flatten ents))
  = length (List.filter (fun f => negb (has_doc f)) (callables ents)).
Proof.
  destruct (panel_of_flatten syntax_error ents) as [Ht Hd].
  pose proof (length_filter_negb has_doc (callables ents)).
  revert Ht Hd. unfold panel_of.
  cbn [documented_funcs undocumented_funcs total_funcs]. lia.
Qed.

(** X18: the panel offers to apply the missing docstrings exactly when
    some function or method of the file has no docstring; a class or a
    module without one does not make it offer. *)
Theorem apply_offered_iff (fs : filesystem) (file_to_scan : string)
    (lines : list string) (tree : Module) :
  fs !! file_to_scan = Some (Readable lines (Some tree)) ->
  exists p,
    coverage_panel fs file_to_scan = Some (Ok p)
    /\ (offers_apply p = true
        <-> Exists (fun f => truthy (f_docstring f) = false)
              (callables (extract tree))).
Proof.
  intros Hfs. exists (panel_of false (flatten (extract tree))).
  split; [exact (coverage_panel_parsed _ _ _ _ Hfs)|].
  destruct (panel_of_flatten false (extract tree)) as [Ht Hd].
  rewrite <- (length_filter_lt has_doc), <- Ht, <- Hd.
  unfold panel_of. cbn [offers_apply documented_funcs total_funcs].
  apply Nat.ltb_lt.
Qed.

Lemma apply_offered_iff_witness :
  exists p,
    coverage_panel Samples.shapes_fs "shapes.py" = Some (Ok p)
    /\ offers_apply p = true.
Proof.
  destruct (apply_offered_iff Samples.shapes_fs "shapes.py"
              Samples.shapes_lines Samples.shapes_tree)
    as (p & Hp & Hoffer); [reflexivity|].
  exists p. split; [done|]. apply Hoffer.
  apply Exists_cons_hd. reflexivity.
Defined.

Lemma length_declaration_pending (ents : Entities) :
  length (declaration_pending_lines ents)
  = length (List.filter (fun f => negb (has_doc f)) (callables ents))
    + length (List.filter (fun c => undocumented (c_docstring c))
                (classes ents)).
Proof.
  unfold declaration_pending_lines, callables.
  rewrite length_app, length_map, List.filter_app, length_app.
  assert (length (flat_map class_pending_lines (classes ents))
          = length (List.filter (fun f => negb (has_doc f))
                      (flat_map c_methods (classes ents)))
            + length (List.filter (fun c => undocumented (c_docstring c))
                        (classes ents))) as ->.
  { induction (classes ents) as [|c cls IH]; [done|].
    cbn [flat_map List.filter].
    rewrite length_app, List.filter_app, length_app, IH.
    unfold class_pending_lines. rewrite length_app, length_map.
    change (fun f => undocumented (f_docstring f))
      with (fun f => negb (has_doc f)).
    destruct (undocumented (c_docstring c)); cbn [length]; lia. }
  change (fun f => undocumented (f_docstring f))
    with (fun f => negb (has_doc f)).
  lia.
Qed.

Lemma length_apply_insertions to_add lines :
  length (apply_insertions to_add lines) = length lines + length to_add.
Proof.
  unfold apply_insertions.
  rewrite fold_insert_doc_perm, sort_desc_perm, length_app, length_map. lia.
Qed.

(** X19: when the rewrite of a parsed file succeeds, the list written has
    one element more for each undocumented function or method that the
    panel counts, for each undocumented class, and for an undocumented
    module; so whenever the panel offers the rewrite, the rewrite adds
    something. *)
Theorem rewrite_adds_what_panel_counts (fs : filesystem)
    (file_to_scan : string) (lines : list string) (tree : Module)
    (out : list string) :
  fs !! file_to_scan = Some (Readable lines (Some tree)) ->
  apply_missing_docstrings fs file_to_scan = Ok out ->
  exists p,
    coverage_panel fs file_to_scan = Some (Ok p)
    /\ length out
       = length lines + undocumented_funcs p
         + length (List.filter (fun c => undocumented (c_docstring c))
                     (classes (extract tree)))
         + (if undocumented (m_docstring (module (extract tree)))
            then 1 else 0)
    /\ (offers_apply p = true -> length lines < length out).
Proof.
  intros Hfs Hout. exists (panel_of false (flatten (extract tree))).
  split; [exact (coverage_panel_parsed _ _ _ _ Hfs)|].
  revert Hout.
  unfold apply_missing_docstrings, analyze_file, parse_file, readlines.
  rewrite Hfs. cbn [mbind result_bind].
  pose proof (collect_outcome file_to_scan (extract tree) lines) as Hcollect.
  destruct (collect file_to_scan (extract tree) lines) as [to_add|e]; [|done].
  cbn [mbind result_bind]. intros [= <-].
  assert (length to_add = length (pending_lines (extract tree))) as Hlen
    by by rewrite <- Hcollect, length_map.
  unfold pending_lines in Hlen.
  rewrite length_app, length_declaration_pending in Hlen.
  rewrite length_apply_insertions, undocumented_funcs_of, Hlen.
  assert (length (if undocumented (m_docstring (module (extract tree)))
                  then [0] else [])
          = if undocumented (m_docstring (module (extract tree)))
            then 1 else 0) as -> by by destruct (undocumented _).
  split; [lia|].
  unfold panel_of at 1. cbn [offers_apply]. intros Hlt%Nat.ltb_lt.
  pose proof (undocumented_funcs_of false (extract tree)) as Hun.
  unfold panel_of in Hun. cbn [undocumented_funcs] in Hun. lia.
Qed.

Lemma rewrite_adds_what_panel_counts_witness :
  exists out,
    apply_missing_docstrings Samples.shapes_fs "shapes.py" = Ok out
    /\ length Samples.shapes_lines < length out.
Proof.
  destruct (apply_missing_docstrings Samples.shapes_fs "shapes.py")
    as [out|e] eqn:Hout; [|by vm_compute in Hout].
  exists out. split; [done|].
  destruct (rewrite_adds_what_panel_counts Samples.shapes_fs "shapes.py"
              Samples.shapes_lines Samples.shapes_tree out)
    as (p & Hp & _ & Hlt); [reflexivity | done |].
  apply Hlt. injection Hp as <-. reflexivity.
Defined.

(** X20: the panel never lets a [SyntaxError] out: for a file that does
    not parse it shows the error and all counts as zero, with coverage 0.0
    and no offer to rewrite; what it does raise, [get_entity_list] raised. *)
Theorem panel_catches_syntax_error (fs : filesystem) (file_to_scan : string) :
  coverage_panel fs file_to_scan <> Some (Raise SyntaxError)
  /\ (forall e, coverage_panel fs file_to_scan = Some (Raise e) ->
        get_entity_list fs file_to_scan = Raise e)
  /\ (get_entity_list fs file_to_scan = Raise SyntaxError ->
      exists_ fs file_to_scan = true ->
      coverage_panel fs file_to_scan
      = Some (Ok {| syntax_error_shown := true; total_funcs := 0;
                    documented_funcs := 0; undocumented_funcs := 0;
                    panel_coverage := 0%float; offers_apply := false |})).
Proof.
  unfold coverage_panel.
  destruct (exists_ fs file_to_scan); [|by repeat split].
  destruct (get_entity_list fs file_to_scan) as [entities|[]];
    repeat split; try done; by intros e [= <-].
Qed.

Lemma panel_catches_syntax_error_witness :
  syntax_error_shown
    <$> default (Raise SyntaxError)
          (coverage_panel CoverageClaims.with_broken "broken.py")
  = Ok true.
Proof.
  destruct (panel_catches_syntax_error CoverageClaims.with_broken "broken.py")
    as (_ & _ & ->); [vm_compute; reflexivity .. | reflexivity].
Defined.

End PanelFacts.

(** ** The complexity list *)

Module ComplexityFacts.

Import Ast Extractor Flattener Complexity MainApp PanelFacts.

Definition by_line (a b : complexity_row) : Prop := r_line a <= r_line b.

Lemma complexity_rows_eq (m : gmap string nat) (ents : Entities) :
  complexity_rows m ents = map (complexity_row_of m) (callables ents).
Proof.
  unfold complexity_rows, callables. rewrite fold_left_snoc, map_app.
  cbn [app]. generalize (map (complexity_row_of m) (functions ents)) as acc.
  induction (classes ents) as [|c cls IH]; intros acc; cbn [fold_left flat_map].
  - by rewrite app_nil_r.
  - by rewrite fold_left_snoc, IH, map_app, app_assoc.
Qed.

Lemma insert_by_line_perm r sorted : insert_by_line r sorted ≡ₚ r :: sorted.
Proof.
  induction sorted as [|q sorted IH]; cbn [insert_by_line]; [done|].
  destruct (r_line r <=? r_line q); [done|]. rewrite IH. apply Permutation_swap.
Qed.

Lemma sort_by_line_perm rows : sort_by_line rows ≡ₚ rows.
Proof.
  induction rows as [|r rows IH]; [done|]. cbn [sort_by_line].
  by rewrite insert_by_line_perm, IH.
Qed.

Lemma insert_by_line_sorted r sorted :
  StronglySorted by_line sorted ->
  StronglySorted by_line (insert_by_line r sorted).
Proof.
  induction 1 as [|q sorted Hsorted IH Hq]; cbn [insert_by_line].
  - repeat constructor.
  - destruct (r_line r <=? r_line q) eqn:Hle.
    + apply Nat.leb_le in Hle. constructor; [by constructor|].
      constructor; [exact Hle|].
      eapply Forall_impl; [exact Hq|]. unfold by_line. intros; lia.
    + apply Nat.leb_gt in Hle. constructor; [exact IH|].
      rewrite insert_by_line_perm. constructor; [unfold by_line; lia | done].
Qed.

Lemma sort_by_line_sorted rows : StronglySorted by_line (sort_by_line rows).
Proof.
  induction rows as [|r rows IH]; cbn [sort_by_line]; [constructor|].
  by apply insert_by_line_sorted.
Qed.

Definition on_line (n : nat) (r : complexity_row) : bool := r_line r =? n.

Lemma insert_by_line_on_line n r sorted :
  List.filter (on_line n) (insert_by_line r sorted)
  = List.filter (on_line n) (r :: sorted).
Proof.
  induction sorted as [|q sorted IH]; cbn [insert_by_line]; [done|].
  destruct (r_line r <=? r_line q) eqn:Hle; [done|].
  apply Nat.leb_gt in Hle. cbn [List.filter] in *. rewrite IH.
  unfold on_line.
  destruct (r_line q =? n) eqn:Hq; [|done].
  apply Nat.eqb_eq in Hq.
  by replace (r_line r =? n) with false by (symmetry; apply Nat.eqb_neq; lia).
Qed.

Lemma sort_by_line_on_line n rows :
  List.filter (on_line n) (sort_by_line rows) = List.filter (on_line n) rows.
Proof.
  induction rows as [|r rows IH]; [done|]. cbn [sort_by_line].
  rewrite insert_by_line_on_line. cbn [List.filter]. by rewrite IH.
Qed.

Lemma get_function_complexity_ok cc_visit fs file_path rows :
  get_function_complexity cc_visit fs file_path = Ok rows ->
  exists lines tree blocks,
    fs !! file_path = Some (Readable lines (Some tree))
    /\ cc_visit lines = Ok blocks
    /\ rows
       = sort_by_line
           (map (complexity_row_of (complexity_map blocks))
              (callables (extract tree))).
Proof.
  unfold get_function_complexity, analyze_file, parse_file, readlines.
  destruct (fs !! file_path) as [[|lines [tree|]]|]; try done;
    cbn [mbind result_bind];
    destruct (cc_visit lines) as [blocks|] eqn:Hcc; try done.
  cbn [mbind result_bind]. intros [= <-]. exists lines, tree, blocks.
  by rewrite complexity_rows_eq.
Qed.

(** X21: the complexity list has one row for each function and method of
    the inventory, in ascending order of line; rows of the same line keep
    the order in which they were appended, functions before methods. *)
Theorem complexity_list_sorted
    (cc_visit : list string -> result (list cc_block))
    (fs : filesystem) (file_path : string) (rows : list complexity_row) :
  get_function_complexity cc_visit fs file_path = Ok rows ->
  exists lines tree blocks,
    fs !! file_path = Some (Readable lines (Some tree))
    /\ cc_visit lines = Ok blocks
    /\ rows ≡ₚ map (complexity_row_of (complexity_map blocks))
                 (callables (extract tree))
    /\ StronglySorted by_line rows
    /\ forall n,
         List.filter (on_line n) rows
         = List.filter (on_line n)
             (map (complexity_row_of (complexity_map blocks))
                (callables (extract tree))).
Proof.
  intros (lines & tree & blocks & Hfs & Hcc & ->)%get_function_complexity_ok.
  exists lines, tree, blocks. split; [done|]. split; [done|].
  split; [apply sort_by_line_perm|]. split; [apply sort_by_line_sorted|].
  intros n. apply sort_by_line_on_line.
Qed.

Lemma complexity_list_sorted_witness :
  exists rows,
    get_function_complexity (fun _ => Ok []) Samples.shapes_fs "shapes.py"
    = Ok rows
    /\ StronglySorted by_line rows.
Proof.
  destruct (get_function_complexity (fun _ => Ok []) Samples.shapes_fs
              "shapes.py") as [rows|e] eqn:Hrows; [|by vm_compute in Hrows].
  exists rows. split; [done|].
  by destruct (complexity_list_sorted _ _ _ _ Hrows)
    as (_ & _ & _ & _ & _ & _ & Hsorted & _).
Defined.

(** The complexity of the last block of that name, 1 when there is none. *)
Definition named (name : string) (b : cc_block) : bool :=
  String.eqb (b_name b) name.

Definition last_complexity (name : string) (cc_blocks : list cc_block) : nat :=
  match last (List.filter (named name) cc_blocks) with
  | Some b => b_complexity b
  | None => 1
  end.

Lemma complexity_map_snoc cc_blocks b :
  complexity_map (cc_blocks ++ [b])
  = <[b_name b := b_complexity b]> (complexity_map cc_blocks).
Proof. unfold complexity_map. by rewrite fold_left_app. Qed.

Lemma complexity_map_lookup cc_blocks name :
  complexity_map cc_blocks !! name
  = b_complexity <$> last (List.filter (named name) cc_blocks).
Proof.
  induction cc_blocks as [|b cc_blocks IH] using rev_ind; [done|].
  rewrite complexity_map_snoc, List.filter_app. cbn [List.filter].
  unfold named at 2. destruct (String.eqb (b_name b) name) eqn:Hname.
  - apply String.eqb_eq in Hname as <-.
    by rewrite lookup_insert_eq, last_snoc.
  - apply String.eqb_neq in Hname.
    by rewrite lookup_insert_ne, app_nil_r.
Qed.

(** X22: the complexity of a row depends on its name only: it is that of
    the last block with this name, or 1 when no block has it; so a function
    and a method of the same name, or two methods of the same name in
    different classes, are given the same complexity. *)
Theorem complexity_is_keyed_by_name
    (cc_visit : list string -> result (list cc_block))
    (fs : filesystem) (file_path : string) (rows : list complexity_row) :
  get_function_complexity cc_visit fs file_path = Ok rows ->
  exists lines cc_blocks,
    readlines fs file_path = Ok lines
    /\ cc_visit lines = Ok cc_blocks
    /\ Forall (fun r => r_complexity r = last_complexity (r_name r) cc_blocks)
         rows
    /\ forall r1 r2,
         r1 ∈ rows -> r2 ∈ rows -> r_name r1 = r_name r2 ->
         r_complexity r1 = r_complexity r2.
Proof.
  intros (lines & tree & blocks & Hfs & Hcc & ->)%get_function_complexity_ok.
  exists lines, blocks. split; [unfold readlines; by rewrite Hfs|].
  split; [done|].
  assert (Forall (fun r => r_complexity r = last_complexity (r_name r) blocks)
            (sort_by_line
               (map (complexity_row_of (complexity_map blocks))
                  (callables (extract tree))))) as Hall.
  { rewrite sort_by_line_perm. apply Forall_fmap, Forall_forall. intros f _.
    cbn [compose complexity_row_of r_complexity r_name].
    rewrite complexity_map_lookup. unfold last_complexity.
    by destruct (last _). }
  split; [done|]. intros r1 r2 H1 H2 Hname.
  rewrite (proj1 (Forall_forall _ _) Hall r1 H1).
  rewrite (proj1 (Forall_forall _ _) Hall r2 H2).
  by rewrite Hname.
Qed.

Lemma complexity_is_keyed_by_name_witness :
  exists rows,
    get_function_complexity
      (fun _ => Ok [ {| b_name := "area"; b_complexity := 2 |};
                     {| b_name := "area"; b_complexity := 5 |} ])
      Samples.shapes_fs "shapes.py"
    = Ok rows
    /\ Forall (fun r => r_name r = "area" -> r_complexity r = 5) rows.
Proof.
  destruct (get_function_complexity
              (fun _ => Ok [ {| b_name := "area"; b_complexity := 2 |};
                             {| b_name := "area"; b_complexity := 5 |} ])
              Samples.shapes_fs "shapes.py") as [rows|e] eqn:Hrows;
    [|by vm_compute in Hrows].
  exists rows. split; [done|].
  destruct (complexity_is_keyed_by_name _ _ _ _ Hrows)
    as (lines & blocks & _ & Hcc & Hall & _).
  injection Hcc as <-.
  eapply Forall_impl; [exact Hall|]. intros r -> ->. reflexivity.
Defined.

(** X23: the complexity list and the coverage panel agree on a file: as
    many rows as the panel counts functions, and as many rows with a
    docstring as the panel counts documented ones. *)
Theorem complexity_list_matches_panel
    (cc_visit : list string -> result (list cc_block))
    (fs : filesystem) (file_path : string) (rows : list complexity_row) :
  get_function_complexity cc_visit fs file_path = Ok rows ->
  exists p,
    coverage_panel fs file_path = Some (Ok p)
    /\ length rows = total_funcs p
    /\ length (List.filter r_has_docstring rows) = documented_funcs p.
Proof.
  intros (lines & tree & blocks & Hfs & Hcc & ->)%get_function_complexity_ok.
  exists (panel_of false (flatten (extract tree))).
  split; [exact (coverage_panel_parsed _ _ _ _ Hfs)|].
  destruct (panel_of_flatten false (extract tree)) as [-> ->].
  assert (forall l l' : list complexity_row,
            l ≡ₚ l' ->
            length (List.filter r_has_docstring l)
            = length (List.filter r_has_docstring l')) as Hfilter.
  { induction 1 as [|x l l' _ IH|x y l|l l' l'' _ IH1 _ IH2];
      cbn [List.filter]; [done| | |congruence].
    - destruct (r_has_docstring x); cbn [length]; by rewrite IH.
    - by destruct (r_has_docstring x), (r_has_docstring y). }
  split.
  - by rewrite sort_by_line_perm, length_map.
  - rewrite (Hfilter _ _ (sort_by_line_perm _)).
    generalize (callables (extract tree)) as fs'.
    induction fs' as [|f fs' IH]; [done|].
    cbn [map List.filter complexity_row_of r_has_docstring]. unfold has_doc at 1.
    destruct (truthy (f_docstring f)); cbn [length]; by rewrite IH.
Qed.

Lemma complexity_list_matches_panel_witness :
  exists rows,
    get_function_complexity (fun _ => Ok []) Samples.shapes_fs "shapes.py"
    = Ok rows
    /\ length rows = 2.
Proof.
  destruct (get_function_complexity (fun _ => Ok []) Samples.shapes_fs
              "shapes.py") as [rows|e] eqn:Hrows; [|by vm_compute in Hrows].
  exists rows. split; [done|].
  destruct (complexity_list_matches_panel _ _ _ _ Hrows) as (p & Hp & -> & _).
  injection Hp as <-. reflexivity.
Defined.

End ComplexityFacts.

(** ** Where a collected block comes from *)

Module BlockFacts.

Import Ast Extractor Inserter InserterFacts PanelFacts.

(** The entity behind a pending insertion: an undocumented function or
    method, an undocumented class, or the undocumented module. *)
Inductive origin (file_path : string) (ents : Entities) (lines : list string)
    (p : pending) : Prop :=
| of_callable (f : func_info) (def_line : string) :
    f ∈ callables ents ->
    truthy (f_docstring f) = false ->
    def_line_of lines (f_line f) = Ok def_line ->
    p = (f_line f,
         generate_google_docstring (f_name f) (Some (f_args f)) false
           (indent_of def_line + 4)) ->
    origin file_path ents lines p
| of_class (c : class_info) (def_line : string) :
    c ∈ classes ents ->
    truthy (c_docstring c) = false ->
    def_line_of lines (c_line c) = Ok def_line ->
    p = (c_line c,
         generate_google_docstring (c_name c) None true
           (indent_of def_line + 4)) ->
    origin file_path ents lines p
| of_module :
    truthy (m_docstring (module ents)) = false ->
    p = (0, module_docstring file_path) ->
    origin file_path ents lines p.

Lemma for_each_invariant {A S : Type} (I : S -> Prop) (P : A -> Prop)
    (body : S -> A -> result S) (items : list A) :
  (forall s x s', P x -> I s -> body s x = Ok s' -> I s') ->
  Forall P items ->
  forall s s', I s -> for_each body items s = Ok s' -> I s'.
Proof.
  intros Hbody. induction 1 as [|x items Hx _ IH]; intros s s' Hs;
    cbn [for_each].
  - by intros [= <-].
  - destruct (body s x) as [s1|] eqn:Hstep; [|done].
    cbn [mbind result_bind]. apply IH. by eapply Hbody.
Qed.

Lemma add_callable_origin file_path ents lines acc f acc' :
  f ∈ callables ents ->
  Forall (origin file_path ents lines) acc ->
  add_callable lines acc f = Ok acc' ->
  Forall (origin file_path ents lines) acc'.
Proof.
  intros Hf Hacc. unfold add_callable.
  destruct (truthy (f_docstring f)) eqn:Hdoc; cbn [negb];
    [by intros [= <-]|].
  destruct (def_line_of lines (f_line f)) as [def_line|] eqn:Hline; [|done].
  cbn [mbind result_bind]. intros [= <-].
  apply Forall_app. split; [done|]. apply Forall_singleton.
  by eapply of_callable.
Qed.

Lemma add_class_origin file_path ents lines acc c acc' :
  c ∈ classes ents ->
  Forall (origin file_path ents lines) acc ->
  add_class lines acc c = Ok acc' ->
  Forall (origin file_path ents lines) acc'.
Proof.
  intros Hc Hacc. unfold add_class.
  assert (Forall (fun f => f ∈ callables ents) (c_methods c)) as Hmethods.
  { apply Forall_forall. intros f Hf. unfold callables.
    apply elem_of_app. right.
    apply list_elem_of_In, in_flat_map. exists c.
    split; by apply list_elem_of_In. }
  destruct (truthy (c_docstring c)) eqn:Hdoc; cbn [negb mbind result_bind].
  - intros Hrun.
    eapply (for_each_invariant (Forall (origin file_path ents lines)) _ _ _
              (fun s x s' => add_callable_origin file_path ents lines s x s')
              Hmethods); [exact Hacc | exact Hrun].
  - destruct (def_line_of lines (c_line c)) as [def_line|] eqn:Hline; [|done].
    cbn [mbind result_bind]. intros Hrun.
    eapply (for_each_invariant (Forall (origin file_path ents lines)) _ _ _
              (fun s x s' => add_callable_origin file_path ents lines s x s')
              Hmethods); [|exact Hrun].
    apply Forall_app. split; [done|]. apply Forall_singleton.
    by eapply of_class.
Qed.

(** X24: every block collected belongs to an entity without a docstring: a
    function or method, with the block synthesized from its name and its
    parameters; a class, with the block of a class and no parameters; or
    the module, at line 0.  The block of a class or callable is indented
    four columns more than the line at its line number. *)
Theorem collected_blocks_origin (file_path : string) (ents : Entities)
    (lines : list string) (to_add : list pending) :
  collect file_path ents lines = Ok to_add ->
  Forall (origin file_path ents lines) to_add.
Proof.
  unfold collect.
  destruct (for_each (add_callable lines) (functions ents) [])
    as [acc1|] eqn:Hfunctions; [|done].
  cbn [mbind result_bind].
  destruct (for_each (add_class lines) (classes ents) acc1)
    as [acc2|] eqn:Hclasses; [|done].
  cbn [mbind result_bind]. intros [= <-].
  assert (Forall (origin file_path ents lines) acc1) as H1.
  { eapply (for_each_invariant (Forall (origin file_path ents lines))
              (fun f => f ∈ callables ents));
      [| |constructor|exact Hfunctions].
    - intros s x s'. apply add_callable_origin.
    - apply Forall_forall. intros f Hf. unfold callables.
      apply elem_of_app. by left. }
  assert (Forall (origin file_path ents lines) acc2) as H2.
  { eapply (for_each_invariant (Forall (origin file_path ents lines))
              (fun c => c ∈ classes ents));
      [| |exact H1|exact Hclasses].
    - intros s x s'. apply add_class_origin.
    - by apply Forall_forall. }
  unfold add_module.
  destruct (truthy (m_docstring (module ents))) eqn:Hdoc; cbn [negb]; [done|].
  apply Forall_app. split; [done|]. apply Forall_singleton.
  by apply of_module.
Qed.

Lemma collected_blocks_origin_witness :
  Forall (origin "pkg/wrapped.py" (extract InserterClaims.wrapped_tree)
            InserterClaims.wrapped_lines)
    InserterClaims.wrapped_to_add.
Proof.
  apply collected_blocks_origin. vm_compute. reflexivity.
Defined.

End BlockFacts.
